(** * RTC signalling server: room directory and its handlers

    A shallow embedding of [server.py].  The module keeps two global
    dictionaries,

      - [rooms]      : {roomId: {userId: sid}}
      - [user_rooms] : {sid: {userId, roomId}}

    and talks to its clients through Flask-SocketIO ([emit], [join_room],
    [leave_room]).  The handlers are modelled as functions from the state
    before the call to the state after it together with the list of [emit]
    calls they made, in program order.  The state carries, next to the two
    dictionaries, the Socket.IO room table that [join_room] and
    [leave_room] update and that decides who receives an event emitted
    with [room=]. *)

From stdpp Require Import gmap strings list fin_maps pretty.

Open Scope string_scope.

(** ** Insertion-ordered dictionaries

    The inner dictionary [rooms[room_id]] is iterated by
    [list(rooms[room_id].keys())], so its insertion order is observable.
    It is kept as an association list: assignment to a present key
    updates in place, assignment to a new key appends, as Python's [dict]
    does. *)
Module PyDict.

Abbreviation t := (list (string * string)) (only parsing).

Fixpoint get (d : t) (k : string) : option string :=
  match d with
  | [] => None
  | (k', v) :: d' => if decide (k' = k) then Some v else get d' k
  end.

(** [d[k] = v] *)
Fixpoint set (d : t) (k v : string) : t :=
  match d with
  | [] => [(k, v)]
  | (k', v') :: d' =>
      if decide (k' = k) then (k, v) :: d' else (k', v') :: set d' k v
  end.

(** [del d[k]]; the caller checks [k in d] first.  Keys are distinct in
    every dictionary the server builds, so at most one entry goes. *)
Fixpoint del (d : t) (k : string) : t :=
  match d with
  | [] => []
  | (k', v') :: d' =>
      if decide (k' = k) then del d' k else (k', v') :: del d' k
  end.

(** [list(d.keys())] *)
Definition keys (d : t) : list string := d.*1.

(** [not d] *)
Definition is_empty (d : t) : bool :=
  match d with [] => true | _ => false end.

(** Keys of a dictionary are pairwise distinct. *)
Definition wf (d : t) : Prop := NoDup (keys d).

End PyDict.

(** ** Identifiers, payloads and events *)

(** Connections are named by their Socket.IO session id ([request.sid]),
    a string; user and room identifiers are the strings the client sent.

    The [data] argument of a handler is a JSON object; the model covers
    objects whose fields are strings, as a [gmap string string]:
    [data.get(k)] is [data !! k], and [None] is a missing field. *)

(** Python truthiness of [data.get(k)]: [None] and [""] are falsy. *)
Definition truthy (v : option string) : bool :=
  match v with
  | Some s => negb (bool_decide (s = ""))
  | None => false
  end.

(** The string held by a truthy field. *)
Definition str (v : option string) : string := default "" v.

(** The event name and payload of an [emit] call. *)
Inductive event : Type :=
| EvConnected (sid : string)
| EvError (message : string)
| EvJoined (userId roomId : string) (users : list string)
| EvUserJoined (userId roomId : string)
| EvLeaved (userId roomId : string)
| EvUserLeft (userId roomId : string)
| EvMessage (data : gmap string string).

(** One [emit] call.  Without [room=] Flask-SocketIO addresses the event
    to [request.sid]; with [room=] it goes to the participants of that
    Socket.IO room, except [skip_sid] when given.  Room identifiers sent
    by clients are taken to differ from session ids, so that an event
    addressed to a connection reaches that connection alone. *)
Inductive emission : Type :=
| ToCaller (c : string) (e : event)
| ToRoom (room : string) (skip_sid : option string) (e : event).

#[global] Instance event_eq_dec : EqDecision event.
Proof. solve_decision. Defined.

#[global] Instance emission_eq_dec : EqDecision emission.
Proof. solve_decision. Defined.

Definition emitted_event (em : emission) : event :=
  match em with
  | ToCaller _ e => e
  | ToRoom _ _ e => e
  end.

(** ** State *)

Record state : Type := State {
  rooms : gmap string PyDict.t;
  user_rooms : gmap string (string * string);
  (** Socket.IO room table maintained by [join_room] / [leave_room]. *)
  sio_rooms : gmap string (gset string)
}.

Definition init : state := State ∅ ∅ ∅.

(** Participants of a Socket.IO room; an unknown room has none. *)
Definition participants (st : state) (room : string) : gset string :=
  default ∅ (sio_rooms st !! room).

(** [join_room(room)] called from a handler of connection [c]. *)
Definition join_room (c room : string) (st : state) : state :=
  State (rooms st) (user_rooms st)
        (<[room := participants st room ∪ {[c]}]> (sio_rooms st)).

(** [leave_room(room)] called from a handler of connection [c]. *)
Definition leave_room (c room : string) (st : state) : state :=
  State (rooms st) (user_rooms st)
        (<[room := participants st room ∖ {[c]}]> (sio_rooms st)).

(** After the [disconnect] handler has run, Socket.IO drops the
    connection from every room it had entered. *)
Definition drop_connection (c : string) (st : state) : state :=
  State (rooms st) (user_rooms st) ((λ s, s ∖ {[c]}) <$> sio_rooms st).

(** Connections that receive an emission, given the room table at the
    time of the [emit] call. *)
Definition recipients (st : state) (em : emission) : gset string :=
  match em with
  | ToCaller c _ => {[c]}
  | ToRoom room None _ => participants st room
  | ToRoom room (Some s) _ => participants st room ∖ {[s]}
  end.

(** ** Handlers *)

Definition validation_message : string := "userId and roomId are required".

(** [_remove_user_from_room(sid, user_id, room_id)] *)
Definition _remove_user_from_room (c user_id room_id : string) (st : state)
  : state :=
  let rooms' :=
    match rooms st !! room_id with
    | Some members =>
        match PyDict.get members user_id with
        | Some _ =>
            let members' := PyDict.del members user_id in
            if PyDict.is_empty members'
            then delete room_id (rooms st)
            else <[room_id := members']> (rooms st)
        | None => rooms st
        end
    | None => rooms st
    end in
  State rooms' (delete c (user_rooms st)) (sio_rooms st).

(** [handle_connect()] with [request.sid = c] *)
Definition handle_connect (c : string) (st : state) : state * list emission :=
  (st, [ToCaller c (EvConnected c)]).

(** [handle_disconnect()] with [request.sid = c] *)
Definition handle_disconnect (c : string) (st : state)
  : state * list emission :=
  match user_rooms st !! c with
  | Some (user_id, room_id) =>
      let st1 := _remove_user_from_room c user_id room_id st in
      (st1, [ToRoom room_id (Some c) (EvUserLeft user_id room_id)])
  | None => (st, [])
  end.

(** [handle_join(data)] with [request.sid = c] *)
Definition handle_join (c : string) (data : gmap string string) (st : state)
  : state * list emission :=
  let user_id := data !! "userId" in
  let room_id := data !! "roomId" in
  if negb (truthy user_id) || negb (truthy room_id)
  then (st, [ToCaller c (EvError validation_message)])
  else
    let u := str user_id in
    let r := str room_id in
    let rooms1 :=
      match rooms st !! r with
      | Some _ => rooms st
      | None => <[r := []]> (rooms st)
      end in
    let rooms2 := <[r := PyDict.set (default [] (rooms1 !! r)) u c]> rooms1 in
    let user_rooms' := <[c := (u, r)]> (user_rooms st) in
    let st1 := join_room c r (State rooms2 user_rooms' (sio_rooms st)) in
    let users_in_room := PyDict.keys (default [] (rooms st1 !! r)) in
    (st1, [ToCaller c (EvJoined u r users_in_room);
           ToRoom r (Some c) (EvUserJoined u r)]).

(** [handle_leave(data)] with [request.sid = c] *)
Definition handle_leave (c : string) (data : gmap string string) (st : state)
  : state * list emission :=
  let user_id := data !! "userId" in
  let room_id := data !! "roomId" in
  if negb (truthy user_id) || negb (truthy room_id)
  then (st, [ToCaller c (EvError validation_message)])
  else
    let u := str user_id in
    let r := str room_id in
    let st1 := _remove_user_from_room c u r st in
    let st2 := leave_room c r st1 in
    (st2, [ToCaller c (EvLeaved u r);
           ToRoom r None (EvUserLeft u r)]).

(** [handle_message(data)] with [request.sid = c] *)
Definition handle_message (c : string) (data : gmap string string) (st : state)
  : state * list emission :=
  let room_id := data !! "roomId" in
  if truthy room_id
  then (st, [ToRoom (str room_id) (Some c) (EvMessage data)])
  else (st, []).

(** ** Requests and runs *)

(** The [data] of a well-formed join or leave request. *)
Definition request (user_id room_id : string) : gmap string string :=
  <["userId" := user_id]> (<["roomId" := room_id]> ∅).

(** One event delivered by the transport to the server. *)
Inductive op : Type :=
| Join (c : string) (data : gmap string string)
| Leave (c : string) (data : gmap string string)
| Disconnect (c : string)
| Message (c : string) (data : gmap string string).

(** The handler run for an event.  A disconnect runs the handler and then
    lets Socket.IO forget the connection. *)
Definition step (o : op) (st : state) : state * list emission :=
  match o with
  | Join c data => handle_join c data st
  | Leave c data => handle_leave c data st
  | Disconnect c =>
      let '(st1, out) := handle_disconnect c st in (drop_connection c st1, out)
  | Message c data => handle_message c data st
  end.

Fixpoint run (ops : list op) (st : state) : state :=
  match ops with
  | [] => st
  | o :: ops' => run ops' (step o st).1
  end.

Definition reachable (st : state) : Prop := ∃ ops, st = run ops init.

(** [c] is handed event [e] by one of the emissions [out] of a handler that
    finished in state [st].  Every handler calls [join_room] or
    [leave_room] before its first [emit], so the room table of the final
    state is the one the emissions are delivered against. *)
Definition receives (st : state) (out : list emission) (c : string) (e : event)
  : bool :=
  bool_decide (Exists (λ em, emitted_event em = e ∧ c ∈ recipients st em) out).

(** The connection stored for [user_id] in [rooms[room_id]], if any. *)
Definition member (st : state) (room_id user_id : string) : option string :=
  rooms st !! room_id ≫= λ m, PyDict.get m user_id.

(** ** Invariants of the specification *)

(** I1: every member entry has a session pointing back to it. *)
Definition I1 (st : state) : Prop :=
  ∀ r m u c, rooms st !! r = Some m → PyDict.get m u = Some c →
             user_rooms st !! c = Some (u, r).

(** I2: every session names an existing room that maps its user to the
    session's connection. *)
Definition I2 (st : state) : Prop :=
  ∀ c u r, user_rooms st !! c = Some (u, r) →
           ∃ m, rooms st !! r = Some m ∧ PyDict.get m u = Some c.

(** I3: no room with an empty member mapping. *)
Definition I3 (st : state) : Prop :=
  ∀ r m, rooms st !! r = Some m → m ≠ [].

(** I4: at most one session per connection. *)
Definition I4 (st : state) : Prop :=
  ∀ c s1 s2, user_rooms st !! c = Some s1 → user_rooms st !! c = Some s2 →
             s1 = s2.

(** The Socket.IO room [r] holds exactly the connections stored in
    [rooms[r]]. *)
Definition in_sync (st : state) : Prop :=
  ∀ r x, x ∈ participants st r ↔ ∃ u, member st r u = Some x.

(** The two dictionaries and the Socket.IO room table describe the same
    memberships. *)
Definition consistent (st : state) : Prop := I1 st ∧ I2 st ∧ in_sync st.

(** Every room dictionary has pairwise distinct keys. *)
Definition rooms_wf (st : state) : Prop :=
  ∀ r m, rooms st !! r = Some m → PyDict.wf m.

(** ** Orderly clients

    A request is orderly when it respects the one-room-per-connection
    protocol of the automated test client: a join comes from a connection that
    holds no session and names a user that is not in the room (or repeats
    the connection's own session), and a leave names the connection's own
    session (or the connection holds none and names a user that is not in
    the room).  Rejected requests, disconnects and relays are always
    orderly. *)
Definition orderly (o : op) (st : state) : bool :=
  match o with
  | Join c data =>
      if truthy (data !! "userId") && truthy (data !! "roomId") then
        let u := str (data !! "userId") in
        let r := str (data !! "roomId") in
        bool_decide (user_rooms st !! c = Some (u, r))
        || (bool_decide (user_rooms st !! c = None)
            && bool_decide (member st r u = None))
      else true
  | Leave c data =>
      if truthy (data !! "userId") && truthy (data !! "roomId") then
        let u := str (data !! "userId") in
        let r := str (data !! "roomId") in
        bool_decide (user_rooms st !! c = Some (u, r))
        || (bool_decide (user_rooms st !! c = None)
            && bool_decide (member st r u = None))
      else true
  | Disconnect _ => true
  | Message _ _ => true
  end.

Fixpoint orderly_run (ops : list op) (st : state) : bool :=
  match ops with
  | [] => true
  | o :: ops' => orderly o st && orderly_run ops' (step o st).1
  end.

(** [data] passes the check [if not user_id or not room_id] with user
    [u] and room [r]. *)
Definition accepted (data : gmap string string) (u r : string) : Prop :=
  data !! "userId" = Some u ∧ data !! "roomId" = Some r ∧ u ≠ "" ∧ r ≠ "".

(** [data] fails that check: a field is missing or empty. *)
Definition rejected (data : gmap string string) : Prop :=
  truthy (data !! "userId") = false ∨ truthy (data !! "roomId") = false.

(** [rooms.get(room_id, {})]: the member mapping of a room, empty when
    the directory has no entry for it. *)
Definition members_of (st : state) (room_id : string) : list (string * string) :=
  default [] (rooms st !! room_id).

(** ** Concrete runs used as test inputs *)
Module Scenario.

(** alice alone in "lobby" on connection "c1". *)
Definition alone : state :=
  run [Join "c1" (request "alice" "lobby")] init.

(** alice on "c1" and bob on "c2", both in "lobby". *)
Definition pair : state :=
  run [Join "c1" (request "alice" "lobby");
       Join "c2" (request "bob" "lobby")] init.

(** As [pair], after bob has left "lobby". *)
Definition pair_bob_left : state :=
  run [Leave "c2" (request "bob" "lobby")] pair.

(** As [pair], after bob's connection "c2" has sent a leave that names
    carol, who is not in "lobby": bob is still listed under "c2", which
    is no longer in the Socket.IO room. *)
Definition muted : state :=
  run [Leave "c2" (request "carol" "lobby")] pair.

(** A relayed payload addressed to "lobby". *)
Definition offer : gmap string string :=
  <["roomId" := "lobby"]> (<["sdp" := "offer"]> ∅).

(** "c2" joins "lobby" under the name alice already uses on "c1". *)
Definition replaced : state :=
  run [Join "c1" (request "alice" "lobby");
       Join "c2" (request "alice" "lobby")] init.

(** "c1" joins "lobby" and then "attic" without leaving "lobby". *)
Definition two_rooms : state :=
  run [Join "c1" (request "alice" "lobby");
       Join "c1" (request "alice" "attic")] init.

(** An orderly session: two joins, a relay, a disconnect. *)
Definition session : list op :=
  [Join "c1" (request "alice" "lobby");
   Join "c2" (request "bob" "lobby");
   Message "c2" (<["roomId" := "lobby"]> (<["sdp" := "offer"]> ∅));
   Disconnect "c1"].

End Scenario.

(** The connection a request comes from ([request.sid]). *)
Definition op_conn (o : op) : string :=
  match o with
  | Join c _ => c
  | Leave c _ => c
  | Disconnect c => c
  | Message c _ => c
  end.

(** ** The test client ([client_test.py])

    A [SignalingClient] remembers whether it is connected and the user
    and room of its last [join_room] call.  Each method is modelled by
    the client after the call and the requests it sent to the server;
    the connection is named by the session id the server gave it. *)
Module Client.

Record t : Type := Client {
  sid : string;
  connected : bool;
  user_id : option string;
  room_id : option string
}.

(** [SignalingClient()] followed by a successful [connect()]: the
    [connect] event handler sets [connected]. *)
Definition connect (s : string) : t := Client s true None None.

(** [join_room(user_id, room_id)] *)
Definition join_room (u r : string) (cl : t) : t * list op :=
  (Client (sid cl) (connected cl) (Some u) (Some r),
   [Join (sid cl) (request u r)]).

(** [leave_room()] *)
Definition leave_room (cl : t) : t * list op :=
  if truthy (user_id cl) && truthy (room_id cl)
  then (cl, [Leave (sid cl) (request (str (user_id cl)) (str (room_id cl)))])
  else (cl, []).

(** [disconnect()]; the [disconnect] event handler clears [connected]. *)
Definition disconnect (cl : t) : t * list op :=
  if connected cl
  then (Client (sid cl) false (user_id cl) (room_id cl), [Disconnect (sid cl)])
  else (cl, []).

(** [f'user{i+1}'] *)
Definition user_name (i : nat) : string := "user" +:+ pretty (i + 1).

(** [for i, client in enumerate(clients): client.join_room(f'user{i+1}',
    room_id)], with the enumeration started at [i]. *)
Fixpoint join_all (i : nat) (room : string) (clients : list t)
  : list t * list op :=
  match clients with
  | [] => ([], [])
  | cl :: rest =>
      let '(cl', sent) := join_room (user_name i) room cl in
      let '(rest', sent') := join_all (S i) room rest in
      (cl' :: rest', (sent ++ sent')%list)
  end.

(** [for client in clients: client.leave_room()] *)
Fixpoint leave_all (clients : list t) : list op :=
  match clients with
  | [] => []
  | cl :: rest => ((leave_room cl).2 ++ leave_all rest)%list
  end.

(** [for client in clients: client.disconnect()] *)
Fixpoint disconnect_all (clients : list t) : list op :=
  match clients with
  | [] => []
  | cl :: rest => ((disconnect cl).2 ++ disconnect_all rest)%list
  end.

(** [auto_test(num_users, room_id)]: the requests the server receives,
    in the order they are sent, when the clients that managed to connect
    were given the session ids [sids].  The script sleeps after each
    request, so the server handles them in this order. *)
Definition auto_test (sids : list string) (room : string) : list op :=
  let clients := connect <$> sids in
  match clients with
  | [] => []
  | _ :: _ =>
      let '(clients', joins) := join_all 0 room clients in
      let first_leave :=
        match clients' with
        | cl :: _ => (leave_room cl).2
        | [] => []
        end in
      let other_leaves := leave_all (tail clients') in
      (joins ++ first_leave ++ other_leaves ++ disconnect_all clients')%list
  end.

(** The client's record of its last join is the session the server
    holds for its connection. *)
Definition agrees (st : state) (cl : t) : Prop :=
  truthy (user_id cl) = true ∧ truthy (room_id cl) = true ∧
  user_rooms st !! sid cl = Some (str (user_id cl), str (room_id cl)).

End Client.

(** * Facts about insertion-ordered dictionaries *)
Module PyDictFacts.
Import PyDict.

Lemma get_set_eq (d : t) k v : get (set d k v) k = Some v.
Proof.
  induction d as [|[k' v'] d IH]; simpl.
  - by rewrite decide_True.
  - destruct (decide (k' = k)) as [->|Hne]; simpl.
    + by rewrite decide_True.
    + by rewrite decide_False.
Qed.

Lemma get_set_ne (d : t) k k' v : k ≠ k' → get (set d k v) k' = get d k'.
Proof.
  intros Hne. induction d as [|[k0 v0] d IH]; simpl.
  - by rewrite decide_False.
  - destruct (decide (k0 = k)) as [->|Hk]; simpl.
    + by rewrite !decide_False.
    + destruct (decide (k0 = k')); [done | apply IH].
Qed.

Lemma get_del_eq (d : t) k : get (del d k) k = None.
Proof.
  induction d as [|[k' v'] d IH]; simpl; [done |].
  destruct (decide (k' = k)) as [->|Hne]; simpl; [done |].
  by rewrite decide_False.
Qed.

Lemma get_del_ne (d : t) k k' : k ≠ k' → get (del d k) k' = get d k'.
Proof.
  intros Hne. induction d as [|[k0 v0] d IH]; simpl; [done |].
  destruct (decide (k0 = k)) as [->|Hk]; simpl.
  - by rewrite decide_False.
  - destruct (decide (k0 = k')); [done | apply IH].
Qed.

Lemma get_del_Some (d : t) k k' v :
  get (del d k) k' = Some v ↔ k ≠ k' ∧ get d k' = Some v.
Proof.
  destruct (decide (k = k')) as [->|Hne].
  - rewrite get_del_eq. split; [done | by intros [? _]].
  - rewrite get_del_ne by done. split; [done | by intros [_ ?]].
Qed.

Lemma set_nonempty (d : t) k v : set d k v ≠ [].
Proof. destruct d as [|[k' v'] d]; simpl; [done |]. by case_decide. Qed.

Lemma is_empty_true (d : t) : is_empty d = true ↔ d = [].
Proof. by destruct d. Qed.

Lemma is_empty_false (d : t) : is_empty d = false ↔ d ≠ [].
Proof. by destruct d. Qed.


Lemma keys_cons (d : t) k v : keys ((k, v) :: d) = k :: keys d.
Proof. reflexivity. Qed.

Lemma elem_of_keys (d : t) k : k ∈ keys d ↔ is_Some (get d k).
Proof.
  induction d as [|[k' v'] d IH].
  - simpl. rewrite elem_of_nil. split; [done | by intros [? ?]].
  - rewrite keys_cons, elem_of_cons, IH. simpl.
    destruct (decide (k' = k)) as [->|Hne].
    + split; [eauto | by left].
    + split; [by intros [?|?] | by right].
Qed.

Lemma keys_set_new (d : t) k v :
  get d k = None → keys (set d k v) = (keys d ++ [k])%list.
Proof.
  induction d as [|[k' v'] d IH]; simpl; [done |].
  destruct (decide (k' = k)); [done |]. intros H.
  by rewrite !keys_cons, IH.
Qed.

Lemma keys_set_old (d : t) k v :
  is_Some (get d k) → keys (set d k v) = keys d.
Proof.
  induction d as [|[k' v'] d IH]; simpl; [by intros [? ?] |].
  destruct (decide (k' = k)) as [->|Hne]; [done |].
  intros H. by rewrite !keys_cons, IH.
Qed.


Lemma keys_del (d : t) k : keys (del d k) = filter (λ x, x ≠ k) (keys d).
Proof.
  induction d as [|[k' v'] d IH]; [done |].
  rewrite keys_cons, filter_cons. cbn [del].
  destruct (decide (k' = k)) as [->|Hne].
  - by rewrite decide_False by (by intros ?).
  - by rewrite decide_True, keys_cons, IH by done.
Qed.

Lemma wf_nil : wf [].
Proof. constructor. Qed.

Lemma wf_set (d : t) k v : wf d → wf (set d k v).
Proof.
  unfold wf. intros Hd. destruct (get d k) eqn:Hk.
  - by rewrite keys_set_old.
  - rewrite keys_set_new by done. apply NoDup_app. split_and!; [done | | apply NoDup_singleton].
    intros x Hx ->%list_elem_of_singleton.
    apply elem_of_keys in Hx. rewrite Hk in Hx. by destruct Hx.
Qed.

Lemma wf_del (d : t) k : wf d → wf (del d k).
Proof. unfold wf. rewrite keys_del. apply NoDup_filter. Qed.

Lemma del_absent (d : t) k : get d k = None → del d k = d.
Proof.
  induction d as [|[k' v'] d IH]; simpl; [done |].
  destruct (decide (k' = k)); [done |]. intros H. by rewrite IH.
Qed.

Lemma del_sole (d : t) k : keys d = [k] → del d k = [].
Proof.
  destruct d as [|[k' v'] [|??]]; simpl; try done.
  intros [= ->]. by rewrite decide_True.
Qed.

Lemma set_same (d : t) k v : get d k = Some v → set d k v = d.
Proof.
  induction d as [|[k' v'] d IH]; simpl; [done |].
  destruct (decide (k' = k)) as [->|Hne]; [by intros [= ->] |].
  intros H. by rewrite IH.
Qed.

Lemma set_set (d : t) k v : set (set d k v) k v = set d k v.
Proof. apply set_same, get_set_eq. Qed.

Lemma del_set_new (d : t) k v : get d k = None → del (set d k v) k = d.
Proof.
  induction d as [|[k' v'] d IH]; simpl.
  - by rewrite decide_True.
  - destruct (decide (k' = k)) as [->|Hne]; [done |]. intros H. simpl.
    by rewrite decide_False, IH.
Qed.

End PyDictFacts.

(** * The handlers, equation by equation *)
Section Handlers.
Import PyDictFacts.
Implicit Types (st : state) (c u r : string) (data : gmap string string).

Lemma accepted_request u r : u ≠ "" → r ≠ "" → accepted (request u r) u r.
Proof. intros. unfold accepted, request. by simplify_map_eq. Qed.

Lemma accepted_truthy data u r :
  accepted data u r →
  truthy (data !! "userId") = true ∧ truthy (data !! "roomId") = true.
Proof.
  intros (-> & -> & Hu & Hr). simpl.
  by rewrite !bool_decide_eq_false_2.
Qed.

Lemma rejected_or_accepted data :
  rejected data ∨ ∃ u r, accepted data u r.
Proof.
  unfold rejected, accepted.
  destruct (data !! "userId") as [u|]; [|by left; left].
  destruct (data !! "roomId") as [r|]; [|by left; right].
  simpl. destruct (decide (u = "")) as [->|Hu]; [by left; left |].
  destruct (decide (r = "")) as [->|Hr]; [by left; right |].
  right. by exists u, r.
Qed.

(** ** [_remove_user_from_room] *)

Lemma remove_user_rooms c u r st :
  user_rooms (_remove_user_from_room c u r st) = delete c (user_rooms st).
Proof. reflexivity. Qed.

Lemma remove_sio_rooms c u r st :
  sio_rooms (_remove_user_from_room c u r st) = sio_rooms st.
Proof. reflexivity. Qed.

Lemma remove_rooms_other c u r st r' :
  r' ≠ r → rooms (_remove_user_from_room c u r st) !! r' = rooms st !! r'.
Proof.
  intros Hne. unfold _remove_user_from_room. simpl.
  destruct (rooms st !! r) as [m|]; [|done].
  destruct (PyDict.get m u); [|done].
  destruct (PyDict.is_empty _).
  - by rewrite lookup_delete_ne.
  - by rewrite lookup_insert_ne.
Qed.

Lemma remove_rooms_absent c u r st :
  member st r u = None → rooms (_remove_user_from_room c u r st) = rooms st.
Proof.
  unfold member, _remove_user_from_room. simpl.
  destruct (rooms st !! r) as [m|]; simpl; [|done]. by intros ->.
Qed.

Lemma remove_rooms_present c u r st m x :
  rooms st !! r = Some m → PyDict.get m u = Some x →
  rooms (_remove_user_from_room c u r st) !! r =
    if PyDict.is_empty (PyDict.del m u) then None
    else Some (PyDict.del m u).
Proof.
  intros Hm Hx. unfold _remove_user_from_room. simpl. rewrite Hm, Hx.
  destruct (PyDict.is_empty _).
  - by rewrite lookup_delete_eq.
  - by rewrite lookup_insert_eq.
Qed.

Lemma remove_rooms_sole c u r st m :
  rooms st !! r = Some m → PyDict.keys m = [u] →
  rooms (_remove_user_from_room c u r st) !! r = None.
Proof.
  intros Hm Hk.
  assert (is_Some (PyDict.get m u)) as [x Hx].
  { apply elem_of_keys. rewrite Hk. by left. }
  rewrite (remove_rooms_present _ _ _ _ _ _ Hm Hx).
  by rewrite (del_sole _ _ Hk).
Qed.

Lemma remove_member c u r st r' u' :
  member (_remove_user_from_room c u r st) r' u' =
    if decide (r' = r ∧ u' = u) then None else member st r' u'.
Proof.
  destruct (decide (r' = r)) as [->|Hr].
  - destruct (member st r u) as [x|] eqn:Hmem.
    + unfold member in Hmem |- *.
      destruct (rooms st !! r) as [m|] eqn:Hm; simpl in Hmem; [|done].
      rewrite (remove_rooms_present _ _ _ _ _ _ Hm Hmem).
      destruct (PyDict.is_empty _) eqn:He; simpl.
      * apply is_empty_true in He. case_decide as Hd; [done |].
        assert (u ≠ u') as Hne by (intros ->; by apply Hd).
        by rewrite <-(get_del_ne m u u'), He.
      * case_decide as Hd.
        -- destruct Hd as [_ ->]. apply get_del_eq.
        -- apply get_del_ne. intros ->. by apply Hd.
    + unfold member at 1. rewrite remove_rooms_absent by done.
      fold (member st r u'). case_decide as Hd; [|done].
      by destruct Hd as [_ ->].
  - unfold member. rewrite remove_rooms_other by done.
    rewrite decide_False; [done | by intros [? _]].
Qed.

Lemma remove_I3 c u r st : I3 st → I3 (_remove_user_from_room c u r st).
Proof.
  intros HI r' m'. destruct (decide (r' = r)) as [->|Hne].
  - destruct (member st r u) as [x|] eqn:Hmem.
    + unfold member in Hmem.
      destruct (rooms st !! r) as [m|] eqn:Hm; simpl in Hmem; [|done].
      rewrite (remove_rooms_present _ _ _ _ _ _ Hm Hmem).
      destruct (PyDict.is_empty _) eqn:He; [done |].
      intros [= <-]. by apply is_empty_false.
    + rewrite remove_rooms_absent by done. apply HI.
  - rewrite remove_rooms_other by done. apply HI.
Qed.

Lemma remove_rooms_wf c u r st :
  rooms_wf st → rooms_wf (_remove_user_from_room c u r st).
Proof.
  intros HI r' m'. destruct (decide (r' = r)) as [->|Hne].
  - destruct (member st r u) as [x|] eqn:Hmem.
    + unfold member in Hmem.
      destruct (rooms st !! r) as [m|] eqn:Hm; simpl in Hmem; [|done].
      rewrite (remove_rooms_present _ _ _ _ _ _ Hm Hmem).
      destruct (PyDict.is_empty _) eqn:He; [done |].
      intros [= <-]. apply wf_del. by eapply HI.
    + rewrite remove_rooms_absent by done. apply HI.
  - rewrite remove_rooms_other by done. apply HI.
Qed.

(** ** [handle_join], [handle_leave], [handle_message] *)

Lemma handle_join_rejected c data st :
  rejected data →
  handle_join c data st = (st, [ToCaller c (EvError validation_message)]).
Proof. unfold handle_join. by intros [-> | ->]; rewrite ?orb_true_r. Qed.

Lemma handle_leave_rejected c data st :
  rejected data →
  handle_leave c data st = (st, [ToCaller c (EvError validation_message)]).
Proof. unfold handle_leave. by intros [-> | ->]; rewrite ?orb_true_r. Qed.

Lemma handle_join_accepted c data u r st :
  accepted data u r →
  handle_join c data st =
    (State (<[r := PyDict.set (default [] (rooms st !! r)) u c]> (rooms st))
           (<[c := (u, r)]> (user_rooms st))
           (<[r := participants st r ∪ {[c]}]> (sio_rooms st)),
     [ToCaller c
        (EvJoined u r
           (PyDict.keys (PyDict.set (default [] (rooms st !! r)) u c)));
      ToRoom r (Some c) (EvUserJoined u r)]).
Proof.
  intros Hacc. destruct (accepted_truthy _ _ _ Hacc) as [Hu Hr].
  destruct Hacc as (Hdu & Hdr & _ & _).
  unfold handle_join. rewrite Hu, Hr, Hdu, Hdr. simpl.
  unfold join_room, participants. simpl.
  destruct (rooms st !! r) as [m|] eqn:Hm; simpl.
  - by rewrite lookup_insert_eq, Hm.
  - by rewrite !lookup_insert_eq, insert_insert_eq.
Qed.

Lemma handle_leave_accepted c data u r st :
  accepted data u r →
  handle_leave c data st =
    (leave_room c r (_remove_user_from_room c u r st),
     [ToCaller c (EvLeaved u r); ToRoom r None (EvUserLeft u r)]).
Proof.
  intros Hacc. destruct (accepted_truthy _ _ _ Hacc) as [Hu Hr].
  destruct Hacc as (Hdu & Hdr & _ & _).
  unfold handle_leave. rewrite Hu, Hr. simpl. by rewrite Hdu, Hdr.
Qed.

Lemma handle_message_relay c data r st :
  data !! "roomId" = Some r → r ≠ "" →
  handle_message c data st = (st, [ToRoom r (Some c) (EvMessage data)]).
Proof.
  intros Hr Hne. unfold handle_message. rewrite Hr. simpl.
  by rewrite bool_decide_eq_false_2.
Qed.

Lemma handle_message_dropped c data st :
  truthy (data !! "roomId") = false → handle_message c data st = (st, []).
Proof. unfold handle_message. by intros ->. Qed.

Lemma join_member c data u r st r' u' :
  accepted data u r →
  member (handle_join c data st).1 r' u' =
    if decide (r' = r ∧ u' = u) then Some c else member st r' u'.
Proof.
  intros Hacc. rewrite (handle_join_accepted _ _ _ _ _ Hacc). simpl.
  unfold member. simpl. destruct (decide (r' = r)) as [->|Hr].
  - rewrite lookup_insert_eq. simpl. case_decide as Hd.
    + destruct Hd as [_ ->]. apply get_set_eq.
    + rewrite get_set_ne by (intros ->; by apply Hd).
      by destruct (rooms st !! r).
  - rewrite lookup_insert_ne by done.
    rewrite decide_False; [done | by intros [? _]].
Qed.

Lemma join_participants c data u r st r' :
  accepted data u r →
  participants (handle_join c data st).1 r' =
    if decide (r' = r) then participants st r ∪ {[c]}
    else participants st r'.
Proof.
  intros Hacc. rewrite (handle_join_accepted _ _ _ _ _ Hacc). simpl.
  unfold participants at 1. simpl. case_decide as Hd.
  - subst. by rewrite lookup_insert_eq.
  - by rewrite lookup_insert_ne.
Qed.

Lemma leave_room_participants c r st r' :
  participants (leave_room c r st) r' =
    if decide (r' = r) then participants st r ∖ {[c]}
    else participants st r'.
Proof.
  unfold participants at 1. simpl. case_decide as Hd.
  - subst. by rewrite lookup_insert_eq.
  - by rewrite lookup_insert_ne.
Qed.

Lemma drop_connection_participants c st r :
  participants (drop_connection c st) r = participants st r ∖ {[c]}.
Proof.
  unfold participants. simpl. rewrite lookup_fmap.
  destruct (sio_rooms st !! r); simpl; [done |]. by rewrite difference_disjoint_L.
Qed.

End Handlers.

(** * Invariants along a run *)
Section Invariants.
Import PyDictFacts.
Implicit Types (st : state) (c u r : string) (data : gmap string string).

Lemma I1_member st :
  I1 st ↔ ∀ r u c, member st r u = Some c → user_rooms st !! c = Some (u, r).
Proof.
  unfold I1, member. split.
  - intros H r u c Hm. destruct (rooms st !! r) as [m|] eqn:Hr; [|done].
    by eapply H.
  - intros H r m u c Hr Hm. apply H. by rewrite Hr.
Qed.

Lemma I2_member st :
  I2 st ↔ ∀ c u r, user_rooms st !! c = Some (u, r) → member st r u = Some c.
Proof.
  unfold I2, member. split.
  - intros H c u r Hc. destruct (H _ _ _ Hc) as (m & -> & Hm). done.
  - intros H c u r Hc. specialize (H _ _ _ Hc).
    destruct (rooms st !! r) as [m|]; [|done]. by exists m.
Qed.

Lemma init_I1 : I1 init.
Proof. by intros r m u c H. Qed.

Lemma init_I2 : I2 init.
Proof. by intros c u r H. Qed.

Lemma init_I3 : I3 init.
Proof. by intros r m H. Qed.

Lemma init_in_sync : in_sync init.
Proof.
  intros r x. unfold participants, member. simpl. rewrite !lookup_empty.
  simpl. split; [by intros ?%not_elem_of_empty | by intros [? ?]].
Qed.

Lemma init_rooms_wf : rooms_wf init.
Proof. by intros r m H. Qed.

Lemma all_I4 st : I4 st.
Proof. intros c s1 s2 H1 H2. congruence. Qed.

Lemma handle_message_state c data st : (handle_message c data st).1 = st.
Proof. unfold handle_message. by destruct (truthy _). Qed.

Lemma handle_disconnect_state c st :
  (handle_disconnect c st).1 =
    match user_rooms st !! c with
    | Some (u, r) => _remove_user_from_room c u r st
    | None => st
    end.
Proof. unfold handle_disconnect. by destruct (user_rooms st !! c) as [[u r]|]. Qed.

Lemma step_disconnect_state c st :
  (step (Disconnect c) st).1 = drop_connection c (handle_disconnect c st).1.
Proof. simpl. by destruct (handle_disconnect c st). Qed.

(** Every handler keeps the room table free of empty rooms. *)
Lemma step_I3 o st : I3 st → I3 (step o st).1.
Proof.
  intros HI. destruct o as [c data|c data|c|c data].
  - simpl. destruct (rejected_or_accepted data) as [Hrej|(u & r & Hacc)].
    + by rewrite handle_join_rejected.
    + rewrite (handle_join_accepted _ _ _ _ _ Hacc).
      intros r' m'. cbn [fst rooms]. destruct (decide (r' = r)) as [->|Hne].
      * rewrite lookup_insert_eq. intros [= <-]. apply set_nonempty.
      * rewrite lookup_insert_ne by done. apply HI.
  - simpl. destruct (rejected_or_accepted data) as [Hrej|(u & r & Hacc)].
    + by rewrite handle_leave_rejected.
    + rewrite (handle_leave_accepted _ _ _ _ _ Hacc).
      by apply (remove_I3 c u r).
  - rewrite step_disconnect_state, handle_disconnect_state.
    destruct (user_rooms st !! c) as [[u r]|]; [|done].
    by apply (remove_I3 c u r).
  - simpl. by rewrite handle_message_state.
Qed.

(** Every handler keeps the keys of each room dictionary distinct. *)
Lemma step_rooms_wf o st : rooms_wf st → rooms_wf (step o st).1.
Proof.
  intros HI. destruct o as [c data|c data|c|c data].
  - simpl. destruct (rejected_or_accepted data) as [Hrej|(u & r & Hacc)].
    + by rewrite handle_join_rejected.
    + rewrite (handle_join_accepted _ _ _ _ _ Hacc).
      intros r' m'. cbn [fst rooms]. destruct (decide (r' = r)) as [->|Hne].
      * rewrite lookup_insert_eq. intros [= <-]. apply wf_set.
        destruct (rooms st !! r) as [m|] eqn:Hm; simpl; [|apply wf_nil].
        by eapply HI.
      * rewrite lookup_insert_ne by done. apply HI.
  - simpl. destruct (rejected_or_accepted data) as [Hrej|(u & r & Hacc)].
    + by rewrite handle_leave_rejected.
    + rewrite (handle_leave_accepted _ _ _ _ _ Hacc).
      by apply (remove_rooms_wf c u r).
  - rewrite step_disconnect_state, handle_disconnect_state.
    destruct (user_rooms st !! c) as [[u r]|]; [|done].
    by apply (remove_rooms_wf c u r).
  - simpl. by rewrite handle_message_state.
Qed.

Lemma run_I3 ops st : I3 st → I3 (run ops st).
Proof.
  revert st. induction ops as [|o ops IH]; intros st HI; [done |].
  simpl. by apply IH, step_I3.
Qed.

Lemma run_rooms_wf ops st : rooms_wf st → rooms_wf (run ops st).
Proof.
  revert st. induction ops as [|o ops IH]; intros st HI; [done |].
  simpl. by apply IH, step_rooms_wf.
Qed.

Lemma run_app ops1 ops2 st : run (ops1 ++ ops2) st = run ops2 (run ops1 st).
Proof.
  revert st. induction ops1 as [|o ops1 IH]; intros st; [done |].
  simpl. apply IH.
Qed.

Lemma reachable_init : reachable init.
Proof. by exists []. Qed.

Lemma reachable_step o st : reachable st → reachable (step o st).1.
Proof.
  intros [ops ->]. exists (ops ++ [o])%list. by rewrite run_app.
Qed.

Lemma reachable_I3 st : reachable st → I3 st.
Proof. intros [ops ->]. apply run_I3, init_I3. Qed.

Lemma reachable_rooms_wf st : reachable st → rooms_wf st.
Proof. intros [ops ->]. apply run_rooms_wf, init_rooms_wf. Qed.

(** ** Orderly requests keep the three tables consistent *)

Lemma consistent_ext st st' :
  (∀ r u, member st' r u = member st r u) →
  (∀ c, user_rooms st' !! c = user_rooms st !! c) →
  (∀ r, participants st' r = participants st r) →
  consistent st → consistent st'.
Proof.
  intros Hm Hs Hp (H1 & H2 & H3). split_and!.
  - apply I1_member. intros r u c. rewrite Hm, Hs. by apply I1_member.
  - apply I2_member. intros c u r. rewrite Hm, Hs. by apply I2_member.
  - intros r x. rewrite Hp. setoid_rewrite Hm. apply H3.
Qed.

Lemma init_consistent : consistent init.
Proof. split_and!; [apply init_I1 | apply init_I2 | apply init_in_sync]. Qed.

Lemma participant_session st c r :
  consistent st → c ∈ participants st r →
  ∃ u, user_rooms st !! c = Some (u, r) ∧ member st r u = Some c.
Proof.
  intros (H1 & _ & H3) [u Hu]%H3. exists u. split; [|done].
  by apply I1_member.
Qed.

Lemma join_fresh_consistent c data u r st :
  accepted data u r → user_rooms st !! c = None → member st r u = None →
  consistent st → consistent (handle_join c data st).1.
Proof.
  intros Hacc Hc Hu (H1 & H2 & H3).
  rewrite I1_member in H1. rewrite I2_member in H2. unfold in_sync in H3.
  split_and!.
  - apply I1_member. intros r' u' c'.
    rewrite (join_member _ _ _ _ _ _ _ Hacc).
    rewrite (handle_join_accepted _ _ _ _ _ Hacc). cbn [fst user_rooms].
    case_decide as Hd.
    + destruct Hd as [-> ->]. intros [= <-]. by rewrite lookup_insert_eq.
    + intros Hm. specialize (H1 _ _ _ Hm).
      rewrite lookup_insert_ne; [done | congruence].
  - apply I2_member. intros c' u' r'.
    rewrite (join_member _ _ _ _ _ _ _ Hacc).
    rewrite (handle_join_accepted _ _ _ _ _ Hacc). cbn [fst user_rooms].
    destruct (decide (c' = c)) as [->|Hne].
    + rewrite lookup_insert_eq. intros [= <- <-]. by rewrite decide_True.
    + rewrite lookup_insert_ne by done. intros Hs%H2.
      case_decide as Hd; [|done]. destruct Hd as [-> ->]. congruence.
  - intros r' x. rewrite (join_participants _ _ _ _ _ _ Hacc).
    setoid_rewrite (join_member _ _ _ _ _ _ _ Hacc).
    destruct (decide (r' = r)) as [->|Hne]; cbv iota.
    + rewrite elem_of_union, elem_of_singleton, H3. split.
      * intros [[u' Hu']| ->].
        -- exists u'. rewrite decide_False; [done |].
           intros [_ ->]. congruence.
        -- exists u. by rewrite decide_True.
      * intros [u' Hu']. case_decide as Hd; [right; congruence |].
        left. by exists u'.
    + rewrite H3. split; intros [u' Hu']; exists u'.
      * rewrite decide_False; [done | by intros [? _]].
      * rewrite decide_False in Hu'; [done | by intros [? _]].
Qed.

Lemma join_again_consistent c data u r st :
  accepted data u r → user_rooms st !! c = Some (u, r) →
  consistent st → consistent (handle_join c data st).1.
Proof.
  intros Hacc Hc Hcons. pose proof Hcons as (H1 & H2 & H3).
  assert (member st r u = Some c) as Hm by (by apply I2_member).
  apply (consistent_ext st); [| | |done].
  - intros r' u'. rewrite (join_member _ _ _ _ _ _ _ Hacc).
    case_decide as Hd; [|done]. by destruct Hd as [-> ->].
  - intros c'. rewrite (handle_join_accepted _ _ _ _ _ Hacc).
    cbn [fst user_rooms]. destruct (decide (c' = c)) as [->|Hne].
    + by rewrite lookup_insert_eq.
    + by rewrite lookup_insert_ne.
  - intros r'. rewrite (join_participants _ _ _ _ _ _ Hacc).
    case_decide as Hd; [|done]. subst r'.
    assert (c ∈ participants st r) by (apply H3; eauto).
    apply set_eq. intros x. rewrite elem_of_union, elem_of_singleton.
    split; [intros [?| ->]; done | by left].
Qed.

(** Removing the membership a session records, and taking the
    connection out of the Socket.IO room. *)
Lemma removal_consistent c u r st st' :
  user_rooms st !! c = Some (u, r) →
  (∀ r' u', member st' r' u' =
              member (_remove_user_from_room c u r st) r' u') →
  (∀ c', user_rooms st' !! c' = delete c (user_rooms st) !! c') →
  (∀ r', participants st' r' = participants st r' ∖ {[c]}) →
  consistent st → consistent st'.
Proof.
  intros Hc Hmem Hses Hpar (H1 & H2 & H3).
  rewrite I1_member in H1. rewrite I2_member in H2. unfold in_sync in H3.
  pose proof (H2 _ _ _ Hc) as Hm. split_and!.
  - apply I1_member. intros r' u' c'. rewrite Hmem, Hses, remove_member.
    case_decide as Hd; [done |]. intros Hm'. specialize (H1 _ _ _ Hm').
    rewrite lookup_delete_ne; [done |].
    intros ->. apply Hd. split; congruence.
  - apply I2_member. intros c' u' r'. rewrite Hmem, Hses, remove_member.
    intros [Hne Hs]%lookup_delete_Some. specialize (H2 _ _ _ Hs).
    rewrite decide_False; [done |]. intros [-> ->]. congruence.
  - intros r' x. rewrite Hpar, elem_of_difference, elem_of_singleton, H3.
    setoid_rewrite Hmem. setoid_rewrite remove_member. split.
    + intros [[u' Hu'] Hx]. exists u'. rewrite decide_False; [done |].
      intros [-> ->]. congruence.
    + intros [u' Hu']. case_decide as Hd; [done |]. split; [by exists u' |].
      intros ->. apply Hd. specialize (H1 _ _ _ Hu'). split; congruence.
Qed.

Lemma leave_own_consistent c data u r st :
  accepted data u r → user_rooms st !! c = Some (u, r) →
  consistent st → consistent (handle_leave c data st).1.
Proof.
  intros Hacc Hc Hcons. rewrite (handle_leave_accepted _ _ _ _ _ Hacc).
  cbn [fst]. apply (removal_consistent c u r st); [done | done | done | | done].
  intros r'. rewrite leave_room_participants.
  case_decide as Hd; [by subst |].
  unfold participants at 1. rewrite remove_sio_rooms.
  fold (participants st r'). symmetry. apply difference_disjoint_L.
  apply disjoint_singleton_r. intros Hin.
  destruct (participant_session _ _ _ Hcons Hin) as (u' & Hu' & _).
  congruence.
Qed.

Lemma leave_absent_consistent c data u r st :
  accepted data u r → user_rooms st !! c = None → member st r u = None →
  consistent st → consistent (handle_leave c data st).1.
Proof.
  intros Hacc Hc Hu Hcons. rewrite (handle_leave_accepted _ _ _ _ _ Hacc).
  cbn [fst]. apply (consistent_ext st); [| | |done].
  - intros r' u'. change (member (leave_room c r ?s) r' u')
      with (member s r' u'). rewrite remove_member.
    case_decide as Hd; [|done]. by destruct Hd as [-> ->].
  - intros c'. cbn [leave_room user_rooms]. rewrite remove_user_rooms.
    destruct (decide (c' = c)) as [->|Hne].
    + by rewrite lookup_delete_eq.
    + by rewrite lookup_delete_ne.
  - intros r'. rewrite leave_room_participants.
    unfold participants. rewrite remove_sio_rooms.
    case_decide as Hd; [|done]. subst r'. fold (participants st r).
    apply difference_disjoint_L, disjoint_singleton_r. intros Hin.
    destruct (participant_session _ _ _ Hcons Hin) as (u' & Hu' & _).
    congruence.
Qed.

Lemma disconnect_consistent c st :
  consistent st → consistent (step (Disconnect c) st).1.
Proof.
  intros Hcons. rewrite step_disconnect_state, handle_disconnect_state.
  destruct (user_rooms st !! c) as [[u r]|] eqn:Hc.
  - apply (removal_consistent c u r st); [done | done | done | | done].
    intros r'. rewrite drop_connection_participants.
    unfold participants. by rewrite remove_sio_rooms.
  - apply (consistent_ext st); [done | done | | done].
    intros r'. rewrite drop_connection_participants.
    apply difference_disjoint_L, disjoint_singleton_r. intros Hin.
    destruct (participant_session _ _ _ Hcons Hin) as (u' & Hu' & _).
    congruence.
Qed.

Lemma step_orderly_consistent o st :
  orderly o st = true → consistent st → consistent (step o st).1.
Proof.
  destruct o as [c data|c data|c|c data]; cbn [orderly step].
  - destruct (rejected_or_accepted data) as [Hrej|(u & r & Hacc)].
    { intros _. by rewrite handle_join_rejected. }
    destruct (accepted_truthy _ _ _ Hacc) as [-> ->].
    destruct Hacc as (Hu & Hr & Hune & Hrne).
    assert (accepted data u r) as Hacc by done.
    rewrite Hu, Hr. cbn [andb str default from_option id].
    intros [Hs%bool_decide_eq_true
           |[Hs%bool_decide_eq_true Hm%bool_decide_eq_true]%andb_true_iff]%orb_true_iff.
    + by apply join_again_consistent with u r.
    + by apply join_fresh_consistent with u r.
  - destruct (rejected_or_accepted data) as [Hrej|(u & r & Hacc)].
    { intros _. by rewrite handle_leave_rejected. }
    destruct (accepted_truthy _ _ _ Hacc) as [-> ->].
    destruct Hacc as (Hu & Hr & Hune & Hrne).
    assert (accepted data u r) as Hacc by done.
    rewrite Hu, Hr. cbn [andb str default from_option id].
    intros [Hs%bool_decide_eq_true
           |[Hs%bool_decide_eq_true Hm%bool_decide_eq_true]%andb_true_iff]%orb_true_iff.
    + by apply leave_own_consistent with u r.
    + by apply leave_absent_consistent with u r.
  - intros _. apply disconnect_consistent.
  - intros _. by rewrite handle_message_state.
Qed.

Lemma run_orderly_consistent ops st :
  orderly_run ops st = true → consistent st → consistent (run ops st).
Proof.
  revert st. induction ops as [|o ops IH]; intros st Hord Hcons; [done |].
  cbn [orderly_run] in Hord. apply andb_true_iff in Hord as [Ho Hrest].
  cbn [run]. apply IH; [done |]. by apply step_orderly_consistent.
Qed.

End Invariants.

(** * Delivery of emissions *)
Section Delivery.
Implicit Types (st : state) (c u r : string) (out : list emission).

Lemma receives_spec st out c e :
  receives st out c e = true ↔
  ∃ em, em ∈ out ∧ emitted_event em = e ∧ c ∈ recipients st em.
Proof.
  unfold receives. rewrite bool_decide_eq_true, Exists_exists. done.
Qed.

Lemma receives_nil st c e : receives st [] c e = false.
Proof.
  apply not_true_is_false. rewrite receives_spec.
  by intros (em & ?%elem_of_nil & _).
Qed.

Lemma receives_to_caller st c e x e' :
  receives st [ToCaller c e] x e' = true ↔ x = c ∧ e' = e.
Proof.
  rewrite receives_spec. split.
  - intros (em & ->%list_elem_of_singleton & He & Hx). simpl in *.
    apply elem_of_singleton in Hx. done.
  - intros [-> ->]. exists (ToCaller c e). split_and!; [by left | done |].
    by apply elem_of_singleton.
Qed.

Lemma receives_cons st em out x e :
  receives st (em :: out) x e = true ↔
  (emitted_event em = e ∧ x ∈ recipients st em) ∨ receives st out x e = true.
Proof.
  rewrite !receives_spec. split.
  - intros (em' & [->|Hin]%elem_of_cons & He & Hx); [by left |].
    right. by exists em'.
  - intros [[He Hx]|(em' & Hin & He & Hx)].
    + exists em. split; [by left | done].
    + exists em'. split; [by right | done].
Qed.

Lemma receives_to_room st room s ev x e :
  receives st [ToRoom room (Some s) ev] x e = true ↔
  e = ev ∧ x ∈ participants st room ∧ x ≠ s.
Proof.
  rewrite receives_cons. cbn [emitted_event recipients].
  rewrite elem_of_difference, elem_of_singleton. split.
  - intros [(<- & ? & ?)|H]; [done |]. by rewrite receives_nil in H.
  - intros (-> & ? & ?). by left.
Qed.

(** The example scenario of the specification, run on the model. *)
Example walkthrough :
  let j1 := step (Join "c1" (request "user1" "room-x")) init in
  let j2 := step (Join "c2" (request "user2" "room-x")) j1.1 in
  let d1 := step (Disconnect "c1") j2.1 in
  let l2 := step (Leave "c2" (request "user2" "room-x")) d1.1 in
  j1.2 = [ToCaller "c1" (EvJoined "user1" "room-x" ["user1"]);
          ToRoom "room-x" (Some "c1") (EvUserJoined "user1" "room-x")] ∧
  j2.2 = [ToCaller "c2" (EvJoined "user2" "room-x" ["user1"; "user2"]);
          ToRoom "room-x" (Some "c2") (EvUserJoined "user2" "room-x")] ∧
  receives j2.1 j2.2 "c1" (EvUserJoined "user2" "room-x") = true ∧
  receives (handle_disconnect "c1" j2.1).1 d1.2 "c2"
           (EvUserLeft "user1" "room-x") = true ∧
  rooms d1.1 !! "room-x" = Some [("user2", "c2")] ∧
  rooms l2.1 !! "room-x" = None.
Proof. cbv zeta. split_and!; vm_compute; reflexivity. Qed.

End Delivery.

(** * The claims of the specification *)
Section Claims.
Import PyDictFacts.
Implicit Types (st : state) (c u r : string) (data : gmap string string).

(** C1 (as stated, refuted): the replaced connection "c1" keeps a session
    for (alice, lobby) while the room maps alice to "c2", so I2 fails;
    and a connection that joined two rooms is still a member of the first
    while its session names the second, so I1 fails. *)
Lemma C1_counterexample :
  ¬ I2 Scenario.replaced ∧ ¬ I1 Scenario.two_rooms.
Proof.
  split.
  - intros H. rewrite I2_member in H.
    specialize (H "c1" "alice" "lobby" eq_refl).
    vm_compute in H. discriminate H.
  - intros H. rewrite I1_member in H.
    specialize (H "lobby" "alice" "c1" eq_refl).
    vm_compute in H. discriminate H.
Qed.

(** C1 (amended): after every finite sequence of join, leave, disconnect
    and relay events from the empty state no room is empty (I3) and a
    connection has at most one session (I4); when every request of the
    sequence is orderly, every member entry has its session (I1) and
    every session has its member entry (I2) as well. *)
Theorem C1_invariants_amended (ops : list op) :
  I3 (run ops init) ∧ I4 (run ops init) ∧
  (orderly_run ops init = true → I1 (run ops init) ∧ I2 (run ops init)).
Proof.
  split_and!.
  - apply run_I3, init_I3.
  - apply all_I4.
  - intros Hord.
    destruct (run_orderly_consistent ops init Hord init_consistent)
      as (H1 & H2 & _).
    done.
Qed.

Lemma C1_invariants_witness :
  I1 (run Scenario.session init) ∧ I2 (run Scenario.session init).
Proof.
  apply (C1_invariants_amended Scenario.session).
  vm_compute. reflexivity.
Defined.

(** C4: a join or a leave whose userId or roomId is missing or empty
    returns the state as it was and emits exactly one event, the error
    addressed to the caller; the caller is its only recipient. *)
Theorem C4_validation_error c data st :
  rejected data →
  handle_join c data st = (st, [ToCaller c (EvError validation_message)]) ∧
  handle_leave c data st = (st, [ToCaller c (EvError validation_message)]) ∧
  ∀ x e, receives st [ToCaller c (EvError validation_message)] x e = true ↔
         x = c ∧ e = EvError validation_message.
Proof.
  intros Hrej. split_and!.
  - by apply handle_join_rejected.
  - by apply handle_leave_rejected.
  - intros x e. apply receives_to_caller.
Qed.

Lemma C4_validation_error_witness :
  handle_join "c3" (request "carol" "") Scenario.pair =
    (Scenario.pair, [ToCaller "c3" (EvError validation_message)]).
Proof.
  apply (C4_validation_error "c3" (request "carol" "") Scenario.pair).
  right. vm_compute. reflexivity.
Defined.

(** C7: an accepted leave always ends with no session stored for the
    calling connection, whatever that session recorded and whether or not
    the named user was in the named room; sessions of other connections
    are not touched. *)
Theorem C7_leave_clears_session c data u r st :
  accepted data u r →
  user_rooms (handle_leave c data st).1 !! c = None ∧
  ∀ c', c' ≠ c →
        user_rooms (handle_leave c data st).1 !! c' = user_rooms st !! c'.
Proof.
  intros Hacc. rewrite (handle_leave_accepted _ _ _ _ _ Hacc).
  cbn [fst leave_room user_rooms]. rewrite remove_user_rooms. split.
  - apply lookup_delete_eq.
  - intros c' Hne. by apply lookup_delete_ne.
Qed.

Lemma C7_leave_clears_session_witness :
  user_rooms Scenario.alone !! "c1" = Some ("alice", "lobby") ∧
  member Scenario.alone "attic" "bob" = None ∧
  user_rooms (handle_leave "c1" (request "bob" "attic") Scenario.alone).1
    !! "c1" = None.
Proof.
  split_and!; [vm_compute; reflexivity | vm_compute; reflexivity |].
  apply (C7_leave_clears_session "c1" (request "bob" "attic") "bob" "attic").
  apply accepted_request; discriminate.
Defined.

(** C10: a message whose roomId is missing or empty is dropped: the
    state is returned as it was and nothing is emitted, not even an
    error to the sender. *)
Theorem C10_message_without_room c data st :
  truthy (data !! "roomId") = false →
  handle_message c data st = (st, []) ∧
  ∀ x e, receives st (handle_message c data st).2 x e = false.
Proof.
  intros H. rewrite (handle_message_dropped _ _ _ H). split; [done |].
  intros x e. apply receives_nil.
Qed.

Lemma C10_message_without_room_witness :
  handle_message "c1" (<["sdp" := "offer"]> ∅) Scenario.pair =
    (Scenario.pair, []).
Proof.
  apply (C10_message_without_room "c1" (<["sdp" := "offer"]> ∅)).
  vm_compute. reflexivity.
Defined.

(** C2 (as stated, refuted): bob has already left "lobby"; his second
    leave is acknowledged and broadcasts user-left again, and alice's
    connection "c1", still in the Socket.IO room, receives it. *)
Lemma C2_counterexample :
  member Scenario.pair_bob_left "lobby" "bob" = None ∧
  (handle_leave "c2" (request "bob" "lobby") Scenario.pair_bob_left).2 =
    [ToCaller "c2" (EvLeaved "bob" "lobby");
     ToRoom "lobby" None (EvUserLeft "bob" "lobby")] ∧
  receives (handle_leave "c2" (request "bob" "lobby") Scenario.pair_bob_left).1
           (handle_leave "c2" (request "bob" "lobby") Scenario.pair_bob_left).2
           "c1" (EvUserLeft "bob" "lobby") = true.
Proof. split_and!; vm_compute; reflexivity. Qed.

(** C2 (amended): an accepted leave naming a user that is not a member
    of the named room raises no error: the room mapping is unchanged,
    the caller's session, if any, is cleared, the caller gets the
    [leaved] acknowledgement, and a user-left event is still emitted to
    the room, reaching every connection of the Socket.IO room other than
    the caller. *)
Theorem C2_leave_absent_amended c data u r st :
  accepted data u r → member st r u = None →
  rooms (handle_leave c data st).1 = rooms st ∧
  user_rooms (handle_leave c data st).1 = delete c (user_rooms st) ∧
  (handle_leave c data st).2 =
    [ToCaller c (EvLeaved u r); ToRoom r None (EvUserLeft u r)] ∧
  recipients (handle_leave c data st).1 (ToRoom r None (EvUserLeft u r)) =
    participants st r ∖ {[c]}.
Proof.
  intros Hacc Hm. rewrite (handle_leave_accepted _ _ _ _ _ Hacc).
  cbn [fst snd recipients]. split_and!.
  - cbn [leave_room rooms]. by apply remove_rooms_absent.
  - reflexivity.
  - reflexivity.
  - rewrite leave_room_participants, decide_True by done.
    unfold participants. by rewrite remove_sio_rooms.
Qed.

Lemma C2_leave_absent_witness :
  rooms (handle_leave "c2" (request "bob" "lobby") Scenario.pair_bob_left).1 =
    rooms Scenario.pair_bob_left.
Proof.
  apply (C2_leave_absent_amended "c2" (request "bob" "lobby") "bob" "lobby").
  - apply accepted_request; discriminate.
  - vm_compute. reflexivity.
Defined.

(** C3: in every reachable state the directory has an entry for a room
    exactly when that room's member mapping is non-empty; an accepted
    join naming a room without entry creates it, holding the new member
    alone; the leave or the disconnect that removes the only member of a
    room deletes the entry, so that a lookup finds no room. *)
Theorem C3_room_lifecycle st :
  reachable st →
  (∀ r, is_Some (rooms st !! r) ↔ members_of st r ≠ []) ∧
  (∀ c data u r, accepted data u r → rooms st !! r = None →
     rooms (handle_join c data st).1 !! r = Some [(u, c)]) ∧
  (∀ c data u r, accepted data u r → PyDict.keys (members_of st r) = [u] →
     rooms (handle_leave c data st).1 !! r = None) ∧
  (∀ c u r, user_rooms st !! c = Some (u, r) →
     PyDict.keys (members_of st r) = [u] →
     rooms (step (Disconnect c) st).1 !! r = None).
Proof.
  intros Hreach. pose proof (reachable_I3 _ Hreach) as HI3.
  assert (∀ r u, PyDict.keys (members_of st r) = [u] →
                 ∃ m, rooms st !! r = Some m ∧ PyDict.keys m = [u]) as Hsole.
  { intros r u. unfold members_of.
    destruct (rooms st !! r) as [m|]; [eauto | done]. }
  split_and!.
  - intros r. unfold members_of. destruct (rooms st !! r) as [m|] eqn:Hm.
    + split; [intros _; by eapply HI3 | eauto].
    + split; [by intros [? ?] | done].
  - intros c data u r Hacc Hnone.
    rewrite (handle_join_accepted _ _ _ _ _ Hacc). cbn [fst rooms].
    by rewrite lookup_insert_eq, Hnone.
  - intros c data u r Hacc (m & Hm & Hk)%Hsole.
    rewrite (handle_leave_accepted _ _ _ _ _ Hacc). cbn [fst leave_room rooms].
    by eapply remove_rooms_sole.
  - intros c u r Hc (m & Hm & Hk)%Hsole.
    rewrite step_disconnect_state, handle_disconnect_state, Hc.
    cbn [drop_connection rooms]. by eapply remove_rooms_sole.
Qed.

Lemma C3_room_lifecycle_witness :
  is_Some (rooms Scenario.alone !! "lobby") ∧
  rooms (handle_join "c2" (request "bob" "attic") Scenario.alone).1
    !! "attic" = Some [("bob", "c2")] ∧
  rooms (handle_leave "c1" (request "alice" "lobby") Scenario.alone).1
    !! "lobby" = None ∧
  rooms (step (Disconnect "c1") Scenario.alone).1 !! "lobby" = None.
Proof.
  destruct (C3_room_lifecycle Scenario.alone)
    as (Hiff & Hjoin & Hleave & Hdisc).
  { exists [Join "c1" (request "alice" "lobby")]. reflexivity. }
  split_and!.
  - apply Hiff. vm_compute. discriminate.
  - apply (Hjoin "c2" _ "bob" "attic").
    + apply accepted_request; discriminate.
    + vm_compute. reflexivity.
  - apply (Hleave "c1" _ "alice" "lobby").
    + apply accepted_request; discriminate.
    + vm_compute. reflexivity.
  - apply (Hdisc "c1" "alice" "lobby"); vm_compute; reflexivity.
Defined.

(** C5 (as stated, refuted): in [muted] the connection "c1" holds the
    session (alice, lobby) and bob is listed in "lobby" under "c2"; when
    "c1" disconnects bob remains a member, and his connection does not
    receive the user-left event. *)
Lemma C5_counterexample :
  user_rooms Scenario.muted !! "c1" = Some ("alice", "lobby") ∧
  member (handle_disconnect "c1" Scenario.muted).1 "lobby" "bob"
    = Some "c2" ∧
  receives (handle_disconnect "c1" Scenario.muted).1
           (handle_disconnect "c1" Scenario.muted).2
           "c2" (EvUserLeft "alice" "lobby") = false.
Proof. split_and!; vm_compute; reflexivity. Qed.

(** C5 (amended): when the connection holds a session (u, r), the
    disconnect handler removes u from room r, deletes the room when u was
    its only member, leaves every other membership alone, removes the
    session, and emits one event, user-left (u, r), to room r with the
    connection itself skipped: nothing is sent to the connection, and the
    event reaches the connections of the Socket.IO room r other than it;
    when the three tables are consistent these are exactly the
    connections of the members that remain in r.  When the connection
    holds no session the handler returns the state as it was and emits
    nothing. *)
Theorem C5_disconnect_amended c st :
  (∀ u r, user_rooms st !! c = Some (u, r) →
     member (handle_disconnect c st).1 r u = None ∧
     (PyDict.keys (members_of st r) = [u] →
        rooms (handle_disconnect c st).1 !! r = None) ∧
     (∀ r' u', ¬ (r' = r ∧ u' = u) →
        member (handle_disconnect c st).1 r' u' = member st r' u') ∧
     user_rooms (handle_disconnect c st).1 !! c = None ∧
     (handle_disconnect c st).2 = [ToRoom r (Some c) (EvUserLeft u r)] ∧
     (∀ x e, receives (handle_disconnect c st).1 (handle_disconnect c st).2
                      x e = true ↔
             e = EvUserLeft u r ∧ x ∈ participants st r ∧ x ≠ c) ∧
     (consistent st →
      ∀ x, x ∈ recipients (handle_disconnect c st).1
                          (ToRoom r (Some c) (EvUserLeft u r)) ↔
           ∃ u', member (handle_disconnect c st).1 r u' = Some x)) ∧
  (user_rooms st !! c = None → handle_disconnect c st = (st, [])).
Proof.
  split.
  - intros u r Hc. pose proof (handle_disconnect_state c st) as Hst.
    rewrite Hc in Hst. rewrite Hst.
    assert ((handle_disconnect c st).2 =
            [ToRoom r (Some c) (EvUserLeft u r)]) as Hout.
    { unfold handle_disconnect. by rewrite Hc. }
    rewrite Hout. split_and!.
    + rewrite remove_member. by rewrite decide_True.
    + unfold members_of. destruct (rooms st !! r) as [m|] eqn:Hm; [|done].
      intros Hk. by eapply remove_rooms_sole.
    + intros r' u' Hne. rewrite remove_member. by rewrite decide_False.
    + rewrite remove_user_rooms. apply lookup_delete_eq.
    + reflexivity.
    + intros x e. rewrite receives_to_room.
      unfold participants. by rewrite remove_sio_rooms.
    + intros Hcons x.
      destruct (disconnect_consistent c st Hcons) as (_ & _ & Hsync).
      rewrite step_disconnect_state, Hst in Hsync.
      specialize (Hsync r x).
      rewrite drop_connection_participants in Hsync.
      cbn [recipients]. apply Hsync.
  - intros Hc. unfold handle_disconnect. by rewrite Hc.
Qed.

Lemma C5_disconnect_witness :
  member (handle_disconnect "c1" Scenario.pair).1 "lobby" "alice" = None ∧
  (∀ x, x ∈ recipients (handle_disconnect "c1" Scenario.pair).1
                       (ToRoom "lobby" (Some "c1")
                               (EvUserLeft "alice" "lobby")) ↔
        ∃ u', member (handle_disconnect "c1" Scenario.pair).1 "lobby" u'
              = Some x) ∧
  handle_disconnect "c9" Scenario.pair = (Scenario.pair, []).
Proof.
  destruct (C5_disconnect_amended "c1" Scenario.pair) as [Hsession _].
  destruct (Hsession "alice" "lobby") as (Hgone & _ & _ & _ & _ & _ & Hrest).
  { vm_compute. reflexivity. }
  destruct (C5_disconnect_amended "c9" Scenario.pair) as [_ Hnone].
  split_and!.
  - exact Hgone.
  - apply Hrest.
    apply (run_orderly_consistent
             [Join "c1" (request "alice" "lobby");
              Join "c2" (request "bob" "lobby")] init);
      [vm_compute; reflexivity | apply init_consistent].
  - apply Hnone. vm_compute. reflexivity.
Defined.

(** C6 (as stated, refuted): alice joins "lobby" on "c1" and again on
    "c2"; the replaced connection "c1" is still in the Socket.IO room and
    is handed the user-joined event of the second join. *)
Lemma C6_counterexample :
  member Scenario.replaced "lobby" "alice" = Some "c2" ∧
  receives (handle_join "c2" (request "alice" "lobby") Scenario.alone).1
           (handle_join "c2" (request "alice" "lobby") Scenario.alone).2
           "c1" (EvUserJoined "alice" "lobby") = true.
Proof. split; vm_compute; reflexivity. Qed.

(** C6 (amended): after join(C1, U, R) directly followed by join(C2, U, R)
    with C1 and C2 distinct, room R maps U to C2; the second join emits
    the joined reply to C2 and the user-joined broadcast to room R with
    C2 skipped, and nothing else; the replaced connection C1 gets no
    event of its own, it receives exactly that user-joined broadcast. *)
Theorem C6_join_replace_amended c1 c2 data u r st :
  c1 ≠ c2 → accepted data u r →
  member (handle_join c2 data (handle_join c1 data st).1).1 r u = Some c2 ∧
  (handle_join c2 data (handle_join c1 data st).1).2 =
    [ToCaller c2
       (EvJoined u r
          (PyDict.keys
             (members_of (handle_join c2 data (handle_join c1 data st).1).1 r)));
     ToRoom r (Some c2) (EvUserJoined u r)] ∧
  ∀ e, receives (handle_join c2 data (handle_join c1 data st).1).1
                (handle_join c2 data (handle_join c1 data st).1).2 c1 e = true ↔
       e = EvUserJoined u r.
Proof.
  intros Hne Hacc.
  assert ((handle_join c2 data (handle_join c1 data st).1).2 =
    [ToCaller c2
       (EvJoined u r
          (PyDict.keys
             (members_of (handle_join c2 data (handle_join c1 data st).1).1 r)));
     ToRoom r (Some c2) (EvUserJoined u r)]) as Hout.
  { rewrite (handle_join_accepted c2 _ _ _ _ Hacc). cbn [fst snd].
    unfold members_of. cbn [rooms]. by rewrite lookup_insert_eq. }
  split_and!; [| exact Hout |].
  - rewrite (join_member _ _ _ _ _ _ _ Hacc). by rewrite decide_True.
  - intros e. rewrite Hout, receives_cons, receives_to_room.
    cbn [emitted_event recipients].
    rewrite !(join_participants _ _ _ _ _ _ Hacc), !decide_True by done.
    rewrite elem_of_singleton. split.
    + intros [[_ ?]|(-> & _ & _)]; done.
    + intros ->. right. split_and!; [done | | done].
      apply elem_of_union_l, elem_of_union_r. by apply elem_of_singleton.
Qed.

Lemma C6_join_replace_witness :
  member (handle_join "c2" (request "alice" "lobby")
            (handle_join "c1" (request "alice" "lobby") init).1).1
         "lobby" "alice" = Some "c2".
Proof.
  apply (C6_join_replace_amended "c1" "c2" (request "alice" "lobby")
           "alice" "lobby" init).
  - discriminate.
  - apply accepted_request; discriminate.
Defined.

(** C8 (as stated, refuted): carol joins "lobby" in [muted]; her joined
    reply lists bob, who is still a member under "c2", but "c2" does not
    receive the user-joined event. *)
Lemma C8_counterexample :
  (handle_join "c3" (request "carol" "lobby") Scenario.muted).2 =
    [ToCaller "c3" (EvJoined "carol" "lobby" ["alice"; "bob"; "carol"]);
     ToRoom "lobby" (Some "c3") (EvUserJoined "carol" "lobby")] ∧
  member (handle_join "c3" (request "carol" "lobby") Scenario.muted).1
         "lobby" "bob" = Some "c2" ∧
  receives (handle_join "c3" (request "carol" "lobby") Scenario.muted).1
           (handle_join "c3" (request "carol" "lobby") Scenario.muted).2
           "c2" (EvUserJoined "carol" "lobby") = false.
Proof. split_and!; vm_compute; reflexivity. Qed.

(** C8 (amended): an accepted join emits exactly two events: the joined
    reply to the caller, whose user list is the key list of the room
    after the insertion (the earlier members and the joining user), and
    the user-joined event for (u, r) to room r with the caller skipped.
    The caller never receives the broadcast; every other connection that
    was in the Socket.IO room r does, and nobody else; for an orderly
    join in a consistent state these are exactly the connections of the
    other members of r. *)
Theorem C8_join_reply_amended c data u r st :
  accepted data u r →
  (handle_join c data st).2 =
    [ToCaller c
       (EvJoined u r (PyDict.keys (members_of (handle_join c data st).1 r)));
     ToRoom r (Some c) (EvUserJoined u r)] ∧
  u ∈ PyDict.keys (members_of (handle_join c data st).1 r) ∧
  (∀ x, x ∈ PyDict.keys (members_of (handle_join c data st).1 r) ↔
        is_Some (member (handle_join c data st).1 r x)) ∧
  (∀ x, x ∈ PyDict.keys (members_of (handle_join c data st).1 r) ↔
        x = u ∨ is_Some (member st r x)) ∧
  (∀ x e, receives (handle_join c data st).1 (handle_join c data st).2
                   x e = true ↔
          (x = c ∧
           e = EvJoined u r
                 (PyDict.keys (members_of (handle_join c data st).1 r))) ∨
          (e = EvUserJoined u r ∧ x ∈ participants st r ∧ x ≠ c)) ∧
  (consistent st → orderly (Join c data) st = true →
   ∀ x, x ∈ recipients (handle_join c data st).1
                       (ToRoom r (Some c) (EvUserJoined u r)) ↔
        x ≠ c ∧ ∃ u', member (handle_join c data st).1 r u' = Some x).
Proof.
  intros Hacc.
  assert (rooms (handle_join c data st).1 !! r =
          Some (members_of (handle_join c data st).1 r)) as Hroom.
  { rewrite (handle_join_accepted _ _ _ _ _ Hacc). unfold members_of.
    cbn [fst rooms]. by rewrite lookup_insert_eq. }
  assert (∀ x, x ∈ PyDict.keys (members_of (handle_join c data st).1 r) ↔
               is_Some (member (handle_join c data st).1 r x)) as Hkeys.
  { intros x. rewrite elem_of_keys. unfold member at 1. by rewrite Hroom. }
  assert ((handle_join c data st).2 =
    [ToCaller c
       (EvJoined u r (PyDict.keys (members_of (handle_join c data st).1 r)));
     ToRoom r (Some c) (EvUserJoined u r)]) as Hout.
  { rewrite (handle_join_accepted _ _ _ _ _ Hacc). cbn [fst snd].
    unfold members_of. cbn [rooms]. by rewrite lookup_insert_eq. }
  split_and!; [exact Hout | | exact Hkeys | | |].
  - apply Hkeys. rewrite (join_member _ _ _ _ _ _ _ Hacc).
    by rewrite decide_True.
  - intros x. rewrite Hkeys, (join_member _ _ _ _ _ _ _ Hacc).
    case_decide as Hd.
    + destruct Hd as [_ ->]. split; [by left | eauto].
    + split; [by right |]. intros [->|?]; [|done]. by destruct Hd.
  - intros x e. rewrite Hout, receives_cons, receives_to_room.
    cbn [emitted_event recipients].
    rewrite (join_participants _ _ _ _ _ _ Hacc), decide_True by done.
    rewrite elem_of_singleton, elem_of_union, elem_of_singleton. split.
    + intros [[<- ->]|(-> & [?|?] & ?)]; [by left | by right | done].
    + intros [[-> ->]|(-> & ? & ?)]; [by left |]. right. split_and!; eauto.
  - intros Hcons Hord x.
    destruct (step_orderly_consistent (Join c data) st Hord Hcons)
      as (_ & _ & Hsync).
    cbn [recipients step] in *.
    rewrite elem_of_difference, elem_of_singleton, (Hsync r x).
    split; intros [? ?]; done.
Qed.

Lemma C8_join_reply_witness :
  (handle_join "c2" (request "bob" "lobby") Scenario.alone).2 =
    [ToCaller "c2" (EvJoined "bob" "lobby" ["alice"; "bob"]);
     ToRoom "lobby" (Some "c2") (EvUserJoined "bob" "lobby")] ∧
  receives (handle_join "c2" (request "bob" "lobby") Scenario.alone).1
           (handle_join "c2" (request "bob" "lobby") Scenario.alone).2
           "c1" (EvUserJoined "bob" "lobby") = true.
Proof.
  destruct (C8_join_reply_amended "c2" (request "bob" "lobby") "bob" "lobby"
              Scenario.alone) as (Hout & _ & _ & _ & Hrecv & _).
  { apply accepted_request; discriminate. }
  split.
  - rewrite Hout. vm_compute. reflexivity.
  - apply Hrecv. right. split_and!; [done | | discriminate].
    vm_compute. reflexivity.
Defined.

(** C9 (as stated, refuted): alice relays into "lobby" in [muted]; bob
    is a member of "lobby" under "c2", another connection than the
    sender's, and "c2" does not receive the payload. *)
Lemma C9_counterexample :
  member Scenario.muted "lobby" "bob" = Some "c2" ∧
  (handle_message "c1" Scenario.offer Scenario.muted).2 =
    [ToRoom "lobby" (Some "c1") (EvMessage Scenario.offer)] ∧
  receives Scenario.muted
           (handle_message "c1" Scenario.offer Scenario.muted).2
           "c2" (EvMessage Scenario.offer) = false.
Proof. split_and!; vm_compute; reflexivity. Qed.

(** C9 (amended): a message with a non-empty roomId leaves the state as
    it was and emits one event, the received data itself, to room r with
    the sender skipped.  The handler consults neither dictionary: whether
    or not the sender ever joined r, every connection of the Socket.IO
    room r other than the sender receives the data, and nobody else; when
    the room table is in step with the directory these are the
    connections of the members of r other than the sender. *)
Theorem C9_relay_amended c data r st :
  data !! "roomId" = Some r → r ≠ "" →
  handle_message c data st = (st, [ToRoom r (Some c) (EvMessage data)]) ∧
  (∀ x e, receives st (handle_message c data st).2 x e = true ↔
          e = EvMessage data ∧ x ∈ participants st r ∧ x ≠ c) ∧
  (in_sync st →
   ∀ x, x ∈ recipients st (ToRoom r (Some c) (EvMessage data)) ↔
        x ≠ c ∧ ∃ u, member st r u = Some x).
Proof.
  intros Hr Hne. rewrite (handle_message_relay _ _ _ _ Hr Hne).
  split_and!; [done | |].
  - intros x e. apply receives_to_room.
  - intros Hsync x. cbn [recipients].
    rewrite elem_of_difference, elem_of_singleton, (Hsync r x).
    split; intros [? ?]; done.
Qed.

Lemma C9_relay_witness :
  user_rooms Scenario.pair !! "c9" = None ∧
  handle_message "c9" Scenario.offer Scenario.pair =
    (Scenario.pair, [ToRoom "lobby" (Some "c9") (EvMessage Scenario.offer)]) ∧
  receives Scenario.pair (handle_message "c9" Scenario.offer Scenario.pair).2
           "c1" (EvMessage Scenario.offer) = true ∧
  receives Scenario.pair (handle_message "c9" Scenario.offer Scenario.pair).2
           "c2" (EvMessage Scenario.offer) = true ∧
  receives Scenario.pair (handle_message "c9" Scenario.offer Scenario.pair).2
           "c9" (EvMessage Scenario.offer) = false.
Proof.
  destruct (C9_relay_amended "c9" Scenario.offer "lobby" Scenario.pair)
    as (Hout & Hrecv & _).
  { vm_compute. reflexivity. }
  { discriminate. }
  split_and!.
  - vm_compute. reflexivity.
  - exact Hout.
  - apply Hrecv. split_and!; [done | vm_compute; reflexivity | discriminate].
  - apply Hrecv. split_and!; [done | vm_compute; reflexivity | discriminate].
  - apply not_true_is_false. rewrite Hrecv. by intros (_ & _ & ?).
Defined.

End Claims.


(** * Further properties of the server *)
Section Server.
Import PyDictFacts.
Implicit Types (st : state) (c u r : string) (data : gmap string string).

Lemma join_rooms_lookup c data u r st :
  accepted data u r →
  rooms (handle_join c data st).1 !! r =
    Some (PyDict.set (members_of st r) u c).
Proof.
  intros Hacc. rewrite (handle_join_accepted _ _ _ _ _ Hacc).
  cbn [fst rooms]. by rewrite lookup_insert_eq.
Qed.

Lemma join_members_of c data u r st :
  accepted data u r →
  members_of (handle_join c data st).1 r = PyDict.set (members_of st r) u c.
Proof.
  intros Hacc. unfold members_of at 1.
  by rewrite (join_rooms_lookup _ _ _ _ _ Hacc).
Qed.

Lemma member_members_of st r u :
  member st r u = PyDict.get (members_of st r) u.
Proof. unfold member, members_of. by destruct (rooms st !! r). Qed.

Lemma join_reply_order_aux c data u r st :
  accepted data u r →
  (is_Some (member st r u) →
   PyDict.keys (members_of (handle_join c data st).1 r) =
     PyDict.keys (members_of st r)) ∧
  (member st r u = None →
   PyDict.keys (members_of (handle_join c data st).1 r) =
     (PyDict.keys (members_of st r) ++ [u])%list).
Proof.
  intros Hacc. rewrite (join_members_of _ _ _ _ _ Hacc), member_members_of.
  split; intros H.
  - by apply keys_set_old.
  - by apply keys_set_new.
Qed.

(** The user list of the joined reply keeps the order in which the
    members joined: a user that was already in the room keeps its place
    and the list is as long as before; a new user is appended at the
    end. *)
Theorem join_reply_order c data u r st :
  accepted data u r →
  (is_Some (member st r u) →
   PyDict.keys (members_of (handle_join c data st).1 r) =
     PyDict.keys (members_of st r)) ∧
  (member st r u = None →
   PyDict.keys (members_of (handle_join c data st).1 r) =
     (PyDict.keys (members_of st r) ++ [u])%list).
Proof. apply join_reply_order_aux. Qed.

Lemma join_reply_order_witness :
  PyDict.keys (members_of
    (handle_join "c3" (request "alice" "lobby") Scenario.pair).1 "lobby") =
    ["alice"; "bob"] ∧
  PyDict.keys (members_of
    (handle_join "c3" (request "carol" "lobby") Scenario.pair).1 "lobby") =
    ["alice"; "bob"; "carol"].
Proof.
  split.
  - destruct (join_reply_order "c3" (request "alice" "lobby") "alice" "lobby"
                Scenario.pair) as [Hold _].
    { apply accepted_request; discriminate. }
    rewrite Hold; [vm_compute; reflexivity |].
    vm_compute. eexists. reflexivity.
  - destruct (join_reply_order "c3" (request "carol" "lobby") "carol" "lobby"
                Scenario.pair) as [_ Hnew].
    { apply accepted_request; discriminate. }
    rewrite Hnew; vm_compute; reflexivity.
Defined.

(** In every reachable state the user list of a joined reply names no
    user twice. *)
Theorem join_reply_nodup c data u r st :
  reachable st → accepted data u r →
  NoDup (PyDict.keys (members_of (handle_join c data st).1 r)).
Proof.
  intros Hreach Hacc.
  pose proof (reachable_rooms_wf _ (reachable_step (Join c data) _ Hreach))
    as Hwf.
  cbn [step] in Hwf. apply (Hwf r).
  rewrite (join_rooms_lookup _ _ _ _ _ Hacc).
  by rewrite (join_members_of _ _ _ _ _ Hacc).
Qed.

Lemma join_reply_nodup_witness :
  NoDup (PyDict.keys (members_of
    (handle_join "c2" (request "alice" "lobby") Scenario.pair).1 "lobby")).
Proof.
  apply (join_reply_nodup "c2" (request "alice" "lobby") "alice" "lobby").
  - exists [Join "c1" (request "alice" "lobby");
            Join "c2" (request "bob" "lobby")]. reflexivity.
  - apply accepted_request; discriminate.
Defined.

(** Sending the same accepted join twice from the same connection is the
    same as sending it once: the second call returns the state of the
    first and emits the same two events. *)
Theorem join_idempotent c data u r st :
  accepted data u r →
  handle_join c data (handle_join c data st).1 = handle_join c data st.
Proof.
  intros Hacc.
  rewrite (handle_join_accepted c data u r (handle_join c data st).1 Hacc).
  rewrite (join_participants _ _ _ _ _ _ Hacc), decide_True by done.
  rewrite (join_rooms_lookup _ _ _ _ _ Hacc). cbn [default from_option id].
  rewrite set_set.
  rewrite (handle_join_accepted c data u r st Hacc). cbn [fst rooms user_rooms sio_rooms].
  fold (members_of st r). rewrite !insert_insert_eq.
  do 3 f_equal. apply set_eq. intros x.
  rewrite !elem_of_union, elem_of_singleton. tauto.
Qed.

Lemma join_idempotent_witness :
  handle_join "c1" (request "alice" "lobby") Scenario.alone =
    (Scenario.alone,
     [ToCaller "c1" (EvJoined "alice" "lobby" ["alice"]);
      ToRoom "lobby" (Some "c1") (EvUserJoined "alice" "lobby")]).
Proof.
  unfold Scenario.alone. cbn [run step].
  rewrite (join_idempotent "c1" (request "alice" "lobby") "alice" "lobby" init).
  - vm_compute. reflexivity.
  - apply accepted_request; discriminate.
Defined.

(** A join from a connection without session, naming a user that is
    not in the room, is undone by the matching leave: both dictionaries
    and every Socket.IO room are as they were before the join.  A room
    that the join created is deleted again. *)
Theorem join_leave_round_trip c data u r st :
  accepted data u r → I3 st →
  user_rooms st !! c = None → member st r u = None → c ∉ participants st r →
  rooms (handle_leave c data (handle_join c data st).1).1 = rooms st ∧
  user_rooms (handle_leave c data (handle_join c data st).1).1 =
    user_rooms st ∧
  ∀ r', participants (handle_leave c data (handle_join c data st).1).1 r' =
        participants st r'.
Proof.
  intros Hacc HI3 Hc Hu Hp.
  rewrite (handle_leave_accepted _ _ _ _ _ Hacc). cbn [fst].
  split_and!.
  - cbn [leave_room rooms]. apply map_eq. intros r'.
    destruct (decide (r' = r)) as [->|Hne].
    + rewrite (remove_rooms_present c u r _ _ c
                 (join_rooms_lookup _ _ _ _ _ Hacc) (get_set_eq _ _ _)).
      rewrite member_members_of in Hu. rewrite (del_set_new _ _ _ Hu).
      unfold members_of. destruct (rooms st !! r) as [m|] eqn:Hm; [|done].
      cbn [default from_option id].
      by rewrite (proj2 (is_empty_false m) (HI3 _ _ Hm)).
    + rewrite remove_rooms_other by done.
      rewrite (handle_join_accepted _ _ _ _ _ Hacc). cbn [fst rooms].
      by rewrite lookup_insert_ne.
  - cbn [leave_room user_rooms]. rewrite remove_user_rooms.
    rewrite (handle_join_accepted _ _ _ _ _ Hacc). cbn [fst user_rooms].
    by apply delete_insert_id.
  - intros r'. rewrite leave_room_participants.
    unfold participants at 1 2. rewrite remove_sio_rooms.
    fold (participants (handle_join c data st).1 r).
    fold (participants (handle_join c data st).1 r').
    rewrite !(join_participants _ _ _ _ _ _ Hacc).
    destruct (decide (r' = r)) as [->|Hne]; [|done].
    rewrite decide_True by done.
    apply set_eq. intros x.
    rewrite elem_of_difference, elem_of_union, elem_of_singleton.
    split; [by intros [[?|?] ?] |]. intros Hx. split; [by left |].
    by intros ->.
Qed.

Lemma join_leave_round_trip_witness :
  rooms (handle_leave "c3" (request "carol" "lobby")
           (handle_join "c3" (request "carol" "lobby") Scenario.pair).1).1 =
    rooms Scenario.pair.
Proof.
  apply (join_leave_round_trip "c3" (request "carol" "lobby") "carol" "lobby"
           Scenario.pair).
  - apply accepted_request; discriminate.
  - apply reachable_I3.
    exists [Join "c1" (request "alice" "lobby");
            Join "c2" (request "bob" "lobby")]. reflexivity.
  - vm_compute. reflexivity.
  - vm_compute. reflexivity.
  - vm_compute. discriminate.
Defined.

(** An accepted join writes one member entry and one session and removes
    nothing: every other entry of every room, including an entry the
    caller holds in another room, and every other connection's session
    are as before. *)
Theorem join_removes_nothing c data u r st :
  accepted data u r →
  member (handle_join c data st).1 r u = Some c ∧
  user_rooms (handle_join c data st).1 !! c = Some (u, r) ∧
  (∀ r' u', ¬ (r' = r ∧ u' = u) →
            member (handle_join c data st).1 r' u' = member st r' u') ∧
  (∀ c', c' ≠ c →
         user_rooms (handle_join c data st).1 !! c' = user_rooms st !! c').
Proof.
  intros Hacc. split_and!.
  - rewrite (join_member _ _ _ _ _ _ _ Hacc). by rewrite decide_True.
  - rewrite (handle_join_accepted _ _ _ _ _ Hacc). cbn [fst user_rooms].
    apply lookup_insert_eq.
  - intros r' u' Hne. rewrite (join_member _ _ _ _ _ _ _ Hacc).
    by rewrite decide_False.
  - intros c' Hne. rewrite (handle_join_accepted _ _ _ _ _ Hacc).
    cbn [fst user_rooms]. by apply lookup_insert_ne.
Qed.

Lemma join_removes_nothing_witness :
  member (handle_join "c1" (request "alice" "attic") Scenario.alone).1
         "lobby" "alice" = Some "c1" ∧
  user_rooms (handle_join "c1" (request "alice" "attic") Scenario.alone).1
    !! "c1" = Some ("alice", "attic").
Proof.
  destruct (join_removes_nothing "c1" (request "alice" "attic") "alice"
              "attic" Scenario.alone) as (_ & Hs & Hm & _).
  { apply accepted_request; discriminate. }
  split; [|exact Hs].
  rewrite Hm; [vm_compute; reflexivity |]. intros [? _]. discriminate.
Defined.

Lemma step_session_other o st c :
  op_conn o ≠ c → user_rooms (step o st).1 !! c = user_rooms st !! c.
Proof.
  intros Hne. destruct o as [c' data|c' data|c'|c' data]; cbn [op_conn] in Hne.
  - cbn [step]. destruct (rejected_or_accepted data) as [Hrej|(u & r & Hacc)].
    + by rewrite handle_join_rejected.
    + rewrite (handle_join_accepted _ _ _ _ _ Hacc). cbn [fst user_rooms].
      by apply lookup_insert_ne.
  - cbn [step]. destruct (rejected_or_accepted data) as [Hrej|(u & r & Hacc)].
    + by rewrite handle_leave_rejected.
    + rewrite (handle_leave_accepted _ _ _ _ _ Hacc).
      cbn [fst leave_room user_rooms]. rewrite remove_user_rooms.
      by apply lookup_delete_ne.
  - rewrite step_disconnect_state, handle_disconnect_state.
    cbn [drop_connection user_rooms].
    destruct (user_rooms st !! c') as [[u r]|]; [|done].
    rewrite remove_user_rooms. by apply lookup_delete_ne.
  - cbn [step]. by rewrite handle_message_state.
Qed.

(** The session of a connection is written and deleted by that
    connection's own requests only: whatever the other connections send,
    the session stays as it was. *)
Theorem session_owned_by_connection c ops st :
  Forall (λ o, op_conn o ≠ c) ops →
  user_rooms (run ops st) !! c = user_rooms st !! c.
Proof.
  intros Hall. revert st.
  induction Hall as [|o ops Ho _ IH]; intros st; [done |].
  cbn [run]. rewrite IH. by apply step_session_other.
Qed.

Lemma session_owned_by_connection_witness :
  user_rooms (run [Join "c2" (request "alice" "lobby");
                   Leave "c2" (request "alice" "lobby");
                   Disconnect "c2"] Scenario.alone) !! "c1" =
    Some ("alice", "lobby").
Proof.
  rewrite (session_owned_by_connection "c1").
  - vm_compute. reflexivity.
  - repeat constructor; discriminate.
Defined.

(** Leave checks no ownership: an accepted leave from any connection
    removes the named user from the named room, whichever connection the
    entry belonged to.  The entry's own connection, when it is not the
    caller, keeps its session and stays in the Socket.IO room. *)
Theorem leave_checks_no_ownership c data u r st c0 :
  accepted data u r → member st r u = Some c0 →
  member (handle_leave c data st).1 r u = None ∧
  (c0 ≠ c →
   user_rooms (handle_leave c data st).1 !! c0 = user_rooms st !! c0 ∧
   (c0 ∈ participants st r → c0 ∈ participants (handle_leave c data st).1 r)).
Proof.
  intros Hacc Hm. rewrite (handle_leave_accepted _ _ _ _ _ Hacc). cbn [fst].
  split.
  - change (member (leave_room c r ?s) r u) with (member s r u).
    rewrite remove_member. by rewrite decide_True.
  - intros Hne. split.
    + cbn [leave_room user_rooms]. rewrite remove_user_rooms.
      by apply lookup_delete_ne.
    + intros Hin. rewrite leave_room_participants, decide_True by done.
      unfold participants. rewrite remove_sio_rooms.
      apply elem_of_difference. split; [done |].
      by rewrite elem_of_singleton.
Qed.

Lemma leave_checks_no_ownership_witness :
  member (handle_leave "c2" (request "alice" "lobby") Scenario.pair).1
         "lobby" "alice" = None ∧
  user_rooms (handle_leave "c2" (request "alice" "lobby") Scenario.pair).1
    !! "c1" = Some ("alice", "lobby").
Proof.
  destruct (leave_checks_no_ownership "c2" (request "alice" "lobby") "alice"
              "lobby" Scenario.pair "c1") as [Hgone Hkeep].
  { apply accepted_request; discriminate. }
  { vm_compute. reflexivity. }
  split; [exact Hgone |].
  destruct Hkeep as [Hs _]; [discriminate |].
  rewrite Hs. vm_compute. reflexivity.
Defined.

(** An accepted leave is answered by [leaved] to the caller alone, and
    its user-left event reaches the connections that were in the
    Socket.IO room, the caller excepted: the call passes no [skip_sid],
    but the caller has left the Socket.IO room before the event is
    emitted. *)
Theorem leave_delivery c data u r st :
  accepted data u r →
  ∀ x e, receives (handle_leave c data st).1 (handle_leave c data st).2 x e
         = true ↔
         (x = c ∧ e = EvLeaved u r) ∨
         (e = EvUserLeft u r ∧ x ∈ participants st r ∧ x ≠ c).
Proof.
  intros Hacc x e. rewrite (handle_leave_accepted _ _ _ _ _ Hacc).
  cbn [fst snd]. rewrite !receives_cons, receives_nil.
  cbn [emitted_event recipients].
  rewrite leave_room_participants, decide_True by done.
  unfold participants at 1. rewrite remove_sio_rooms.
  fold (participants st r).
  rewrite elem_of_singleton, elem_of_difference, elem_of_singleton.
  split.
  - intros [[<- ->]|[(<- & ? & ?)|?]]; [by left | by right | done].
  - intros [[-> ->]|(-> & ? & ?)]; [by left | right; by left].
Qed.

Lemma leave_delivery_witness :
  receives (handle_leave "c2" (request "bob" "lobby") Scenario.pair).1
           (handle_leave "c2" (request "bob" "lobby") Scenario.pair).2
           "c2" (EvUserLeft "bob" "lobby") = false.
Proof.
  apply not_true_is_false.
  rewrite (leave_delivery "c2" (request "bob" "lobby") "bob" "lobby"
             Scenario.pair); [|apply accepted_request; discriminate].
  intros [[_ ?]|(_ & _ & ?)]; done.
Defined.

(** A leave that names another user than the one the caller occupies in
    the room keeps the caller's member entry but takes the caller out of
    the Socket.IO room and deletes its session: the caller is still
    listed in the room and no longer reached by events emitted to it. *)
Theorem leave_other_user_mutes_caller c data u r st u0 :
  accepted data u r → u0 ≠ u → member st r u0 = Some c →
  member (handle_leave c data st).1 r u0 = Some c ∧
  (c ∉ participants (handle_leave c data st).1 r) ∧
  user_rooms (handle_leave c data st).1 !! c = None.
Proof.
  intros Hacc Hne Hm. rewrite (handle_leave_accepted _ _ _ _ _ Hacc).
  cbn [fst]. split_and!.
  - change (member (leave_room c r ?s) r u0) with (member s r u0).
    rewrite remove_member, decide_False; [done | by intros [_ ?]].
  - rewrite leave_room_participants, decide_True by done.
    rewrite elem_of_difference, elem_of_singleton. by intros [_ ?].
  - cbn [leave_room user_rooms]. apply lookup_delete_eq.
Qed.

Lemma leave_other_user_mutes_caller_witness :
  member (handle_leave "c1" (request "bob" "lobby") Scenario.alone).1
         "lobby" "alice" = Some "c1" ∧
  ("c1" ∉ participants
            (handle_leave "c1" (request "bob" "lobby") Scenario.alone).1
            "lobby") ∧
  user_rooms (handle_leave "c1" (request "bob" "lobby") Scenario.alone).1
    !! "c1" = None.
Proof.
  apply (leave_other_user_mutes_caller "c1" (request "bob" "lobby") "bob"
           "lobby" Scenario.alone "alice").
  - apply accepted_request; discriminate.
  - discriminate.
  - vm_compute. reflexivity.
Defined.

(** A disconnect in a consistent state leaves no trace of the
    connection: it holds no session, no member entry of any room names
    it, and it is in no Socket.IO room. *)
Theorem disconnect_leaves_no_trace c st :
  consistent st →
  user_rooms (step (Disconnect c) st).1 !! c = None ∧
  (∀ r u, member (step (Disconnect c) st).1 r u ≠ Some c) ∧
  (∀ r, c ∉ participants (step (Disconnect c) st).1 r).
Proof.
  intros Hcons.
  assert (∀ r, c ∉ participants (step (Disconnect c) st).1 r) as Hout.
  { intros r. rewrite step_disconnect_state, drop_connection_participants.
    rewrite elem_of_difference, elem_of_singleton. by intros [_ ?]. }
  split_and!; [| | exact Hout].
  - rewrite step_disconnect_state, handle_disconnect_state.
    cbn [drop_connection user_rooms].
    destruct (user_rooms st !! c) as [[u r]|] eqn:Hc; [|done].
    rewrite remove_user_rooms. apply lookup_delete_eq.
  - intros r u Hm.
    destruct (disconnect_consistent c st Hcons) as (_ & _ & Hsync).
    apply (Hout r), Hsync. by exists u.
Qed.

Lemma disconnect_leaves_no_trace_witness :
  user_rooms (step (Disconnect "c1") Scenario.pair).1 !! "c1" = None.
Proof.
  apply (disconnect_leaves_no_trace "c1" Scenario.pair).
  apply (run_orderly_consistent
           [Join "c1" (request "alice" "lobby");
            Join "c2" (request "bob" "lobby")] init);
    [vm_compute; reflexivity | apply init_consistent].
Defined.

(** A second disconnect of the same connection changes nothing and
    emits nothing. *)
Theorem disconnect_twice c st :
  step (Disconnect c) (step (Disconnect c) st).1 =
    ((step (Disconnect c) st).1, []).
Proof.
  assert (user_rooms (step (Disconnect c) st).1 !! c = None) as Hnone.
  { rewrite step_disconnect_state, handle_disconnect_state.
    cbn [drop_connection user_rooms].
    destruct (user_rooms st !! c) as [[u r]|] eqn:Hc; [|done].
    rewrite remove_user_rooms. apply lookup_delete_eq. }
  cbn [step] in *. destruct (handle_disconnect c st) as [st1 out1].
  cbn [fst] in *. unfold handle_disconnect at 1. rewrite Hnone.
  f_equal. unfold drop_connection. cbn [rooms user_rooms sio_rooms].
  f_equal. rewrite <-map_fmap_compose. apply map_fmap_ext.
  intros r s _. cbn. apply set_eq. intros x.
  rewrite !elem_of_difference. tauto.
Qed.

(** Along an orderly run the Socket.IO room of every room identifier
    holds exactly the connections stored in the directory for that room,
    so that an event emitted to a room reaches the directory's members
    and nobody else. *)
Theorem orderly_run_in_sync ops :
  orderly_run ops init = true →
  ∀ r x, x ∈ participants (run ops init) r ↔
         ∃ u, member (run ops init) r u = Some x.
Proof.
  intros Hord.
  destruct (run_orderly_consistent ops init Hord init_consistent)
    as (_ & _ & Hsync).
  exact Hsync.
Qed.

Lemma orderly_run_in_sync_witness :
  "c2" ∈ participants (run Scenario.session init) "lobby".
Proof.
  apply (orderly_run_in_sync Scenario.session).
  - vm_compute. reflexivity.
  - exists "bob". vm_compute. reflexivity.
Defined.

Lemma no_sessions_no_rooms st :
  consistent st → I3 st → user_rooms st = ∅ →
  rooms st = ∅ ∧ ∀ r, participants st r = ∅.
Proof.
  intros (H1 & _ & Hsync) HI3 Hempty.
  assert (∀ r u c, member st r u ≠ Some c) as Hno.
  { intros r u c Hm. pose proof (proj1 (I1_member st) H1 _ _ _ Hm) as Hs.
    by rewrite Hempty, lookup_empty in Hs. }
  split.
  - apply map_eq. intros r. rewrite lookup_empty.
    destruct (rooms st !! r) as [m|] eqn:Hm; [|done].
    destruct m as [|[u c] m]; [by destruct (HI3 _ _ Hm) |].
    destruct (Hno r u c). unfold member. rewrite Hm. simpl.
    by rewrite decide_True.
  - intros r. apply set_eq. intros x. split; [|by intros ?%not_elem_of_empty].
    intros [u Hu]%Hsync. by destruct (Hno r u x).
Qed.

(** On an orderly run, once no connection holds a session any more, the
    directory has no room left and every Socket.IO room is empty. *)
Theorem orderly_run_drains ops :
  orderly_run ops init = true → user_rooms (run ops init) = ∅ →
  rooms (run ops init) = ∅ ∧ ∀ r, participants (run ops init) r = ∅.
Proof.
  intros Hord Hempty. apply no_sessions_no_rooms; [| | done].
  - by apply run_orderly_consistent; [|apply init_consistent].
  - apply run_I3, init_I3.
Qed.

Lemma orderly_run_drains_witness :
  rooms (run (Scenario.session ++ [Leave "c2" (request "bob" "lobby")]) init)
    = ∅.
Proof.
  apply (orderly_run_drains
           (Scenario.session ++ [Leave "c2" (request "bob" "lobby")])).
  - vm_compute. reflexivity.
  - vm_compute. reflexivity.
Defined.

End Server.


(** * The automated test against the server *)
Section AutoTest.
Import Client.
Implicit Types (st : state) (c u r : string) (cl : Client.t).

Lemma orderly_run_app ops1 ops2 st :
  orderly_run (ops1 ++ ops2) st =
    orderly_run ops1 st && orderly_run ops2 (run ops1 st).
Proof.
  revert st. induction ops1 as [|o ops1 IH]; intros st; [done |].
  cbn [app orderly_run run]. by rewrite IH, andb_assoc.
Qed.

Lemma user_name_inj i j : user_name i = user_name j → i = j.
Proof.
  unfold user_name. intros [= H]. simpl in H.
  apply (inj (String.append "")) in H. apply (inj pretty) in H. lia.
Qed.

Lemma user_name_nonempty i : user_name i ≠ "".
Proof. unfold user_name. by simpl. Qed.

Lemma request_user u r : request u r !! "userId" = Some u.
Proof. unfold request. apply lookup_insert_eq. Qed.

Lemma request_room u r : request u r !! "roomId" = Some r.
Proof. unfold request. by rewrite lookup_insert_ne, lookup_insert_eq. Qed.

Lemma truthy_str (v : option string) :
  truthy v = true → v = Some (str v) ∧ str v ≠ "".
Proof.
  destruct v as [x|]; [|done]. simpl.
  intros H%negb_true_iff%bool_decide_eq_false. done.
Qed.

Lemma orderly_join_fresh c u r st :
  u ≠ "" → r ≠ "" → user_rooms st !! c = None → member st r u = None →
  orderly (Join c (request u r)) st = true.
Proof.
  intros Hu Hr Hc Hm. cbn [orderly].
  rewrite request_user, request_room. cbn [truthy str default from_option id].
  rewrite !bool_decide_eq_false_2 by done. cbn [negb andb].
  rewrite (bool_decide_eq_true_2 _ Hc), (bool_decide_eq_true_2 _ Hm).
  apply orb_true_r.
Qed.

Lemma orderly_leave_own c u r st :
  u ≠ "" → r ≠ "" → user_rooms st !! c = Some (u, r) →
  orderly (Leave c (request u r)) st = true.
Proof.
  intros Hu Hr Hc. cbn [orderly].
  rewrite request_user, request_room. cbn [truthy str default from_option id].
  rewrite !bool_decide_eq_false_2 by done. cbn [negb andb].
  by rewrite (bool_decide_eq_true_2 _ Hc).
Qed.

Lemma step_session_none o st c :
  match o with Join _ _ => False | _ => True end →
  user_rooms st !! c = None → user_rooms (step o st).1 !! c = None.
Proof.
  intros Ho Hc. destruct (decide (op_conn o = c)) as [Heq|Hne].
  2:{ by rewrite step_session_other. }
  destruct o as [c' data|c' data|c'|c' data]; cbn [op_conn] in Heq; subst c'.
  - done.
  - cbn [step]. destruct (rejected_or_accepted data) as [Hrej|(u & r & Hacc)].
    + by rewrite handle_leave_rejected.
    + rewrite (handle_leave_accepted _ _ _ _ _ Hacc).
      cbn [fst leave_room user_rooms]. apply lookup_delete_eq.
  - rewrite step_disconnect_state, handle_disconnect_state, Hc. exact Hc.
  - cbn [step]. by rewrite handle_message_state.
Qed.

(** The join loop on a room name the server accepts. *)
Lemma join_phase room sids :
  room ≠ "" → ∀ (i : nat) st,
  NoDup sids → consistent st →
  (∀ s, s ∈ sids → user_rooms st !! s = None) →
  (∀ j : nat, (i ≤ j)%nat → member st room (user_name j) = None) →
  orderly_run (join_all i room (connect <$> sids)).2 st = true ∧
  consistent (run (join_all i room (connect <$> sids)).2 st) ∧
  (∀ c, c ∉ sids →
        user_rooms (run (join_all i room (connect <$> sids)).2 st) !! c =
          user_rooms st !! c) ∧
  Forall (agrees (run (join_all i room (connect <$> sids)).2 st))
         (join_all i room (connect <$> sids)).1 ∧
  sid <$> (join_all i room (connect <$> sids)).1 = sids.
Proof.
  intros Hroom. induction sids as [|s rest IH]; intros i st Hnd Hcons Hnone Hfree.
  { cbn. split_and!; done. }
  apply NoDup_cons in Hnd as [Hs Hnd].
  cbn [fmap list_fmap join_all join_room connect sid].
  change (list_fmap string Client.t connect rest) with (connect <$> rest).
  destruct (join_all (S i) room (connect <$> rest)) as [rest' sent'] eqn:Hja.
  cbn [fst snd app orderly_run run step].
  assert (accepted (request (user_name i) room) (user_name i) room) as Hacc.
  { apply accepted_request; [apply user_name_nonempty | done]. }
  set (st1 := (handle_join s (request (user_name i) room) st).1).
  assert (consistent st1) as Hcons1.
  { apply join_fresh_consistent with (user_name i) room; [done | | | done].
    - apply Hnone. by left.
    - by apply Hfree. }
  destruct (IH (S i) st1) as (Hord & Hc' & Hother & Hagree & Hsids).
  - done.
  - done.
  - intros s' Hs'. unfold st1.
    rewrite (handle_join_accepted _ _ _ _ _ Hacc). cbn [fst user_rooms].
    rewrite lookup_insert_ne by (intros ->; done).
    apply Hnone. by right.
  - intros j Hj. unfold st1. rewrite (join_member _ _ _ _ _ _ _ Hacc).
    rewrite decide_False; [apply Hfree; lia |].
    intros [_ Hname%user_name_inj]. lia.
  - rewrite Hja in *. cbn [fst snd] in *. split_and!.
    + rewrite orderly_join_fresh; [done | apply user_name_nonempty | done | |].
      * apply Hnone. by left.
      * by apply Hfree.
    + done.
    + intros c Hc. apply not_elem_of_cons in Hc as [Hne Hc].
      rewrite (Hother c Hc). unfold st1.
      rewrite (handle_join_accepted _ _ _ _ _ Hacc). cbn [fst user_rooms].
      by rewrite lookup_insert_ne.
    + constructor; [|done]. unfold agrees. cbn [user_id room_id sid truthy str].
      cbn [default from_option id].
      rewrite !bool_decide_eq_false_2 by (done || apply user_name_nonempty).
      split_and!; [done | done |].
      rewrite (Hother s Hs). unfold st1.
      rewrite (handle_join_accepted _ _ _ _ _ Hacc). cbn [fst user_rooms].
      apply lookup_insert_eq.
    + cbn [fmap list_fmap sid]. by f_equal.
Qed.

(** The join loop on the empty room name: every join is rejected, and
    no client will send a leave. *)
Lemma join_phase_rejected sids :
  ∀ (i : nat) st,
  orderly_run (join_all i "" (connect <$> sids)).2 st = true ∧
  run (join_all i "" (connect <$> sids)).2 st = st ∧
  leave_all (join_all i "" (connect <$> sids)).1 = [].
Proof.
  induction sids as [|s rest IH]; intros i st; [done |].
  cbn [fmap list_fmap join_all join_room connect sid].
  change (list_fmap string Client.t connect rest) with (connect <$> rest).
  destruct (IH (S i) st) as (Hord & Hrun & Hleave).
  destruct (join_all (S i) "" (connect <$> rest)) as [rest' sent'].
  cbn [fst snd app orderly_run run step orderly] in *.
  rewrite request_room. cbn [truthy]. rewrite bool_decide_eq_true_2 by done.
  cbn [negb]. rewrite andb_false_r.
  rewrite handle_join_rejected by (right; by rewrite request_room).
  cbn [fst andb leave_all leave_room user_id room_id truthy].
  split_and!; [done | done |]. rewrite Hleave. unfold leave_room.
  cbn [user_id room_id truthy]. rewrite (bool_decide_eq_true_2 ("" = "")) by done.
  cbn [negb]. by rewrite andb_false_r.
Qed.

(** The leave loop: each client leaves the session it holds. *)
Lemma leave_phase clients :
  ∀ st,
  NoDup (sid <$> clients) → consistent st → Forall (agrees st) clients →
  orderly_run (leave_all clients) st = true ∧
  consistent (run (leave_all clients) st) ∧
  (∀ c, user_rooms st !! c = None ∨ c ∈ sid <$> clients →
        user_rooms (run (leave_all clients) st) !! c = None).
Proof.
  induction clients as [|cl rest IH]; intros st Hnd Hcons Hagree.
  { cbn. split_and!; [done | done |]. intros c [?|?%elem_of_nil]; done. }
  cbn [fmap list_fmap] in Hnd. apply NoDup_cons in Hnd as [Hcl Hnd].
  apply Forall_cons in Hagree as [(Htu & Htr & Hs) Hagree].
  destruct (truthy_str _ Htu) as [Hu Hune].
  destruct (truthy_str _ Htr) as [Hr Hrne].
  cbn [leave_all]. unfold leave_room. rewrite Htu, Htr.
  cbn [andb snd app orderly_run run step].
  set (data := request (str (user_id cl)) (str (room_id cl))).
  assert (accepted data (str (user_id cl)) (str (room_id cl))) as Hacc
    by (by apply accepted_request).
  set (st1 := (handle_leave (sid cl) data st).1).
  assert (user_rooms st1 = delete (sid cl) (user_rooms st)) as Hst1.
  { unfold st1. by rewrite (handle_leave_accepted _ _ _ _ _ Hacc). }
  destruct (IH st1) as (Hord & Hc' & Hgone).
  - done.
  - by apply leave_own_consistent with (str (user_id cl)) (str (room_id cl)).
  - rewrite Forall_forall in Hagree |- *. intros cl' Hin.
    destruct (Hagree cl' Hin) as (Htu' & Htr' & Hs').
    split_and!; [done | done |].
    rewrite Hst1, lookup_delete_ne; [done |].
    intros Heq. apply Hcl. rewrite Heq. by apply list_elem_of_fmap_2.
  - split_and!.
    + unfold data. by rewrite orderly_leave_own.
    + done.
    + intros c Hc. apply Hgone.
      destruct (decide (c = sid cl)) as [->|Hne].
      * left. rewrite Hst1. apply lookup_delete_eq.
      * destruct Hc as [Hc|Hc].
        -- left. by rewrite Hst1, lookup_delete_ne.
        -- right. cbn [fmap list_fmap] in Hc.
           by apply elem_of_cons in Hc as [?|?].
Qed.

(** The disconnect loop creates no session. *)
Lemma disconnect_phase clients :
  ∀ st,
  consistent st →
  orderly_run (disconnect_all clients) st = true ∧
  consistent (run (disconnect_all clients) st) ∧
  (∀ c, user_rooms st !! c = None →
        user_rooms (run (disconnect_all clients) st) !! c = None).
Proof.
  induction clients as [|cl rest IH]; intros st Hcons; [done |].
  cbn [disconnect_all]. unfold disconnect.
  destruct (connected cl); cbn [snd app]; [|by apply IH].
  cbn [orderly_run orderly run andb].
  destruct (IH (step (Disconnect (sid cl)) st).1) as (Hord & Hc' & Hnone).
  { by apply disconnect_consistent. }
  split_and!; [done | done |].
  intros c Hc. by apply Hnone, step_session_none.
Qed.

Lemma auto_test_phases sids room :
  auto_test sids room =
    ((join_all 0 room (connect <$> sids)).2 ++
     leave_all (join_all 0 room (connect <$> sids)).1 ++
     disconnect_all (join_all 0 room (connect <$> sids)).1)%list.
Proof.
  unfold auto_test. destruct (connect <$> sids) as [|c0 cs]; [done |].
  destruct (join_all 0 room (c0 :: cs)) as [[|cl tl] joins];
    cbn [fst snd tail leave_all]; [done |].
  by rewrite <-(assoc_L (++)).
Qed.

(** Whatever the room name and however many clients connected, as
    long as their session ids are distinct, every request of the
    automated test is orderly and the test leaves the server as it found
    it: no room, no session, nobody in any Socket.IO room. *)
Theorem auto_test_leaves_server_empty sids room :
  NoDup sids →
  orderly_run (auto_test sids room) init = true ∧
  rooms (run (auto_test sids room) init) = ∅ ∧
  user_rooms (run (auto_test sids room) init) = ∅ ∧
  ∀ r, participants (run (auto_test sids room) init) r = ∅.
Proof.
  intros Hnd. rewrite auto_test_phases.
  set (joined := join_all 0 room (connect <$> sids)).
  rewrite !orderly_run_app, !run_app.
  assert (orderly_run joined.2 init = true ∧
          orderly_run (leave_all joined.1) (run joined.2 init) = true ∧
          consistent (run (leave_all joined.1) (run joined.2 init)) ∧
          ∀ c, user_rooms (run (leave_all joined.1) (run joined.2 init)) !! c
               = None) as (Hord1 & Hord2 & Hcons & Hnone).
  { destruct (decide (room = "")) as [->|Hroom].
    - destruct (join_phase_rejected sids 0 init) as (Hord & Hrun & Hleave).
      fold joined in Hord, Hrun, Hleave. rewrite Hrun, Hleave.
      split_and!; [done | done | apply init_consistent | done].
    - destruct (join_phase room sids Hroom 0 init) as
        (Hord & Hc1 & Hother & Hagree & Hsids); [done | apply init_consistent | | |].
      { done. }
      { intros j _. unfold member, init. cbn [rooms]. by rewrite lookup_empty. }
      fold joined in Hord, Hc1, Hother, Hagree, Hsids.
      destruct (leave_phase joined.1 (run joined.2 init))
        as (Hord' & Hc2 & Hgone); [by rewrite Hsids | done | done |].
      split_and!; [done | done | done |].
      intros c. apply Hgone. rewrite Hsids.
      destruct (decide (c ∈ sids)) as [Hin|Hout]; [by right |].
      left. by rewrite Hother. }
  destruct (disconnect_phase joined.1
              (run (leave_all joined.1) (run joined.2 init)) Hcons)
    as (Hord3 & Hcons3 & Hnone3).
  rewrite Hord1, Hord2, Hord3.
  assert (user_rooms
            (run (disconnect_all joined.1)
               (run (leave_all joined.1) (run joined.2 init))) = ∅) as Hempty.
  { apply map_eq. intros c. rewrite lookup_empty. apply Hnone3, Hnone. }
  destruct (no_sessions_no_rooms _ Hcons3) as [Hrooms Hpart]; [|done |].
  { do 3 apply run_I3. apply init_I3. }
  done.
Qed.

Lemma auto_test_leaves_server_empty_witness :
  rooms (run (auto_test ["s1"; "s2"; "s3"] "test-room") init) = ∅.
Proof.
  apply (auto_test_leaves_server_empty ["s1"; "s2"; "s3"] "test-room").
  apply (bool_decide_unpack _). vm_compute. exact I.
Defined.

(** After the join loop of the automated test on an accepted room name
    the room lists user1, user2, ... in this order behind the members it
    had before, provided none of these names was in the room; on a fresh
    server the last client's joined reply is user1 ... userN. *)
Theorem auto_test_join_order room sids :
  room ≠ "" → ∀ (i : nat) st,
  (∀ j : nat, (i ≤ j < i + length sids)%nat →
              member st room (user_name j) = None) →
  PyDict.keys
    (members_of (run (join_all i room (connect <$> sids)).2 st) room) =
    (PyDict.keys (members_of st room) ++
     (user_name <$> seq i (length sids)))%list.
Proof.
  intros Hroom. induction sids as [|s rest IH]; intros i st Hfree.
  { cbn. by rewrite app_nil_r. }
  cbn [fmap list_fmap join_all join_room connect sid].
  change (list_fmap string Client.t connect rest) with (connect <$> rest).
  specialize (IH (S i) (handle_join s (request (user_name i) room) st).1).
  destruct (join_all (S i) room (connect <$> rest)) as [rest' sent'].
  cbn [fst snd app run step] in *.
  assert (accepted (request (user_name i) room) (user_name i) room) as Hacc.
  { apply accepted_request; [apply user_name_nonempty | done]. }
  cbn [length] in Hfree. rewrite IH.
  - destruct (join_reply_order_aux s _ _ _ st Hacc) as [_ Hnew].
    rewrite Hnew by (apply Hfree; lia).
    cbn [length seq fmap list_fmap]. by rewrite <-(assoc_L (++)).
  - intros j Hj. rewrite (join_member _ _ _ _ _ _ _ Hacc).
    rewrite decide_False; [apply Hfree; lia |].
    intros [_ Hname%user_name_inj]. lia.
Qed.

Lemma auto_test_join_order_witness :
  PyDict.keys
    (members_of
       (run (join_all 0 "test-room" (connect <$> ["s1"; "s2"])).2
            (run [Join "s0" (request "user7" "test-room")] init))
       "test-room") = ["user7"; "user1"; "user2"].
Proof.
  rewrite (auto_test_join_order "test-room" ["s1"; "s2"]).
  - vm_compute. reflexivity.
  - discriminate.
  - intros j [_ Hj]. cbn [length] in Hj.
    destruct j as [|[|j]]; [vm_compute; reflexivity | vm_compute; reflexivity |].
    lia.
Defined.

End AutoTest.
